(** * PineconeDb: the Pinecone adapter of embedchain

    A shallow embedding of [embedchain/vectordb/pinecone.py].  The adapter is
    a thin layer over a hosted service, so the model keeps three things
    explicit: the Python values that cross the interface, the exceptions the
    methods raise, and the sequence of calls made on the Pinecone client. *)

From Stdlib Require Import ZArith Floats.SpecFloat Ascii String.
From stdpp Require Import gmap strings list fin_maps pretty.

Set Default Proof Using "Type".
#[local] Set Warnings "-register-all,-clear-no-such-hyp".
#[local] Open Scope Z_scope.

(** ** Python values *)

(** The values that reach the adapter: metadata entries, filters, vector
    components, and the arguments whose type the code checks at run time.
    Sets are sets of strings, the only sets the adapter builds. *)
Inductive pyval :=
| VNone
| VBool (b : bool)
| VInt (z : Z)
| VFloat (f : spec_float)
| VStr (s : string)
| VList (l : list pyval)
| VSet (s : gset string)
| VDict (d : gmap string pyval).

(** [isinstance(v, str)] *)
Definition isinstance_str (v : pyval) : bool :=
  match v with VStr _ => true | _ => false end.

(** ** Exceptions *)

(** A raised exception: the name of its class and its message. *)
Record exn := Exn { exn_class : string; exn_msg : string }.

Definition TypeError (msg : string) : exn := Exn "TypeError" msg.
Definition ValueError (msg : string) : exn := Exn "ValueError" msg.
Definition KeyError (key : string) : exn := Exn "KeyError" key.
Definition IndexError (msg : string) : exn := Exn "IndexError" msg.
Definition AttributeError (msg : string) : exn := Exn "AttributeError" msg.

(** The exception of the Pinecone client's models for a field that is absent;
    the class derives from [AttributeError]. *)
Definition ApiAttributeError (msg : string) : exn := Exn "ApiAttributeError" msg.

Inductive outcome (A : Type) :=
| Returned (a : A)
| Raised (e : exn).
Arguments Returned {A} a.
Arguments Raised {A} e.

(** ** Computations with state and exceptions

    A method runs on a state [Σ] and either returns or raises; what it wrote
    before raising stays written, as in Python. *)
Definition M (Σ A : Type) : Type := Σ → outcome A * Σ.

Definition ret {Σ A} (a : A) : M Σ A := λ σ, (Returned a, σ).

Definition raise {Σ A} (e : exn) : M Σ A := λ σ, (Raised e, σ).

Definition bind {Σ A B} (m : M Σ A) (k : A → M Σ B) : M Σ B :=
  λ σ, match m σ with
       | (Returned a, σ') => k a σ'
       | (Raised e, σ') => (Raised e, σ')
       end.

Definition gets {Σ A} (f : Σ → A) : M Σ A := λ σ, (Returned (f σ), σ).

Definition modify {Σ} (f : Σ → Σ) : M Σ unit := λ σ, (Returned tt, f σ).

Declare Scope py_scope.
Delimit Scope py_scope with py.
Notation "'do' x <- m ; k" := (bind m (λ x, k))
  (at level 10, x name, m at level 100, k at level 200,
   format "'[v' 'do'  x  <-  m ; '/' k ']'") : py_scope.
Notation "m ;; k" := (bind m (λ _, k))
  (at level 100, k at level 200, right associativity) : py_scope.
#[local] Open Scope py_scope.

(** [for x in xs: body x], threading an accumulator. *)
Fixpoint for_each {Σ A B} (body : B → A → M Σ B) (xs : list A) (acc : B) : M Σ B :=
  match xs with
  | [] => ret acc
  | x :: xs' => do acc' <- body acc x; for_each body xs' acc'
  end.

(** ** Strings *)

Definition is_upper (c : ascii) : bool :=
  (65 <=? nat_of_ascii c)%nat && (nat_of_ascii c <=? 90)%nat.

Definition is_lower (c : ascii) : bool :=
  (97 <=? nat_of_ascii c)%nat && (nat_of_ascii c <=? 122)%nat.

Definition is_digit (c : ascii) : bool :=
  (48 <=? nat_of_ascii c)%nat && (nat_of_ascii c <=? 57)%nat.

Definition lower_char (c : ascii) : ascii :=
  if is_upper c then ascii_of_nat (nat_of_ascii c + 32) else c.

(** [s.lower()] on ASCII text, which is what the strings of the model hold:
    the letters A to Z change, every other character stays.  ([str.lower]
    would also lowercase letters beyond ASCII.) *)
Fixpoint lower (s : string) : string :=
  match s with
  | EmptyString => EmptyString
  | String c s' => String (lower_char c) (lower s')
  end.

(** [s.replace(old, new)] for one-character [old] and [new]. *)
Fixpoint replace (old new : ascii) (s : string) : string :=
  match s with
  | EmptyString => EmptyString
  | String c s' => String (if Ascii.eqb c old then new else c) (replace old new s')
  end.

(** [str(n)] for an integer, as an f-string formats it. *)
Definition str_int (n : Z) : string := pretty n.

Fixpoint string_forallb (p : ascii → bool) (s : string) : bool :=
  match s with
  | EmptyString => true
  | String c s' => p c && string_forallb p s'
  end.

(** ** Configuration *)

(** The fields of [PineconeDbConfig] that the adapter reads. *)
Record PineconeDbConfig := {
  collection_name : string;
  dimension : Z;
  metric : string;
}.

(** ** The Pinecone client *)

(** A match of a similarity query, with the two fields the adapter reads;
    [sv_metadata] is absent unless the query asked for metadata. *)
Record ScoredVector := {
  sv_id : string;
  sv_metadata : option (gmap string pyval);
}.

(** A record as it is sent by [upsert]: [{"id": .., "values": .., "metadata": ..}]. *)
Record Vector := {
  vec_id : string;
  vec_values : list pyval;
  vec_metadata : pyval;
}.

(** [pinecone.Index(name)], a local handle on the index called [name]. *)
Record Index := { handle_name : string }.

(** The calls the adapter makes on the service.  An optional argument that a
    call site leaves out is [None]. *)
Inductive call :=
| pinecone_init (api_key environment : option string)
| pinecone_list_indexes
| pinecone_create_index (name metric : string) (dim : Z)
| pinecone_delete_index (name : string)
| Index_upsert (index : Index) (vectors : list Vector)
| Index_query (index : Index) (vector : list pyval) (top_k : Z) (filter : pyval)
    (include_metadata : option bool)
| Index_describe_index_stats (index : Index).

(** What a call gives back; for [describe_index_stats] the model keeps the
    ["total_vector_count"] entry, for [query] the ["matches"] entry. *)
Definition reply (c : call) : Type :=
  match c with
  | pinecone_list_indexes => option (list string)
  | Index_query _ _ _ _ _ => list ScoredVector
  | Index_describe_index_stats _ => Z
  | _ => unit
  end.

Definition is_query (c : call) : bool :=
  match c with Index_query _ _ _ _ _ => true | _ => false end.

(** ** The world outside the adapter *)

Definition loc := positive.

(** [environ] is [os.environ]; [heap] holds the objects the caller shares with
    the adapter by reference (a location outside the map holds [None]);
    [calls] is the history of service calls, oldest first; [service] is the
    remote side, which answers a call knowing the history, or fails. *)
Record World := {
  environ : gmap string string;
  heap : gmap loc pyval;
  calls : list call;
  service : list call → ∀ c : call, outcome (reply c);
}.

Definition deref (l : loc) (w : World) : pyval := default VNone (heap w !! l).

Definition with_heap (h : gmap loc pyval) (w : World) : World :=
  {| environ := environ w; heap := h; calls := calls w; service := service w |}.

Definition with_calls (cs : list call) (w : World) : World :=
  {| environ := environ w; heap := heap w; calls := cs; service := service w |}.

(** The embedding provider: [embedding_fn] maps texts to vectors, or fails. *)
Record Embedder := {
  embedding_fn : list string → outcome (list (list pyval));
}.

(** The attributes of a [PineconeDb] object; [None] is an attribute that was
    never assigned.  [index_name] and [client] are unset while [__init__]
    runs.  The [embedder] attribute is assigned from outside, later: once
    assigned it holds an embedder or the value [None]. *)
Record PineconeDb := {
  config : PineconeDbConfig;
  index_name : option string;
  client : option Index;
  embedder_attr : option (option Embedder);
}.

(** The embedding provider attached to the object, if there is one. *)
Definition embedder (db : PineconeDb) : option Embedder :=
  match embedder_attr db with
  | Some (Some e) => Some e
  | _ => None
  end.

Record State := {
  self : PineconeDb;
  world : World;
}.

Definition with_collection_name (name : string) (s : State) : State :=
  {| self := {| config := {| collection_name := name;
                             dimension := dimension (config (self s));
                             metric := metric (config (self s)) |};
                index_name := index_name (self s);
                client := client (self s);
                embedder_attr := embedder_attr (self s) |};
     world := world s |}.

Definition with_index_name (name : string) (s : State) : State :=
  {| self := {| config := config (self s);
                index_name := Some name;
                client := client (self s);
                embedder_attr := embedder_attr (self s) |};
     world := world s |}.

Definition with_client (c : Index) (s : State) : State :=
  {| self := {| config := config (self s);
                index_name := index_name (self s);
                client := Some c;
                embedder_attr := embedder_attr (self s) |};
     world := world s |}.

Definition with_world (w : World) (s : State) : State :=
  {| self := self s; world := w |}.

(** Reading an attribute of [self]; an unset one raises [AttributeError]. *)
Definition attr {A} (name : string) (field : PineconeDb → option A) : M State A :=
  λ s, match field (self s) with
       | Some a => (Returned a, s)
       | None => (Raised (AttributeError name), s)
       end.

(** Running a computation of the world inside a method. *)
Definition in_world {A} (m : M World A) : M State A :=
  λ s, let '(r, w) := m (world s) in (r, with_world w s).

(** A service call: it is recorded, and the service's answer is the result. *)
Definition invoke (c : call) : M World (reply c) :=
  λ w, (service w (calls w) c, with_calls (calls w ++ [c]) w).

(** [obj[key] = value] on a shared object; only a dict takes it. *)
Definition setitem (l : loc) (key : string) (value : pyval) : M World unit :=
  λ w, match deref l w with
       | VDict d => (Returned tt, with_heap (<[l := VDict (<[key := value]> d)]> (heap w)) w)
       | _ => (Raised (TypeError "object does not support item assignment"), w)
       end.

(** Lifting the result of an outside function that may fail. *)
Definition of_outcome {Σ A} (r : outcome A) : M Σ A := λ σ, (r, σ).

(** [range(n)] *)
Definition range (n : Z) : list Z := Z.of_nat <$> seq 0 (Z.to_nat n).

(** [zip(a, b, c, d)]: stops with the shortest. *)
Fixpoint zip4 {A B C D} (a : list A) (b : list B) (c : list C) (d : list D)
  : list (A * B * C * D) :=
  match a, b, c, d with
  | x :: a', y :: b', z :: c', u :: d' => (x, y, z, u) :: zip4 a' b' c' d'
  | _, _, _, _ => []
  end.

(** [list(map(f, xs))] for an [f] that may raise. *)
Fixpoint map_M {Σ A B} (f : A → M Σ B) (xs : list A) : M Σ (list B) :=
  match xs with
  | [] => ret []
  | x :: xs' => do y <- f x; do ys <- map_M f xs'; ret (y :: ys)
  end.

(** ** The adapter *)

(** What a caller may pass as [config]: a configuration instance or any
    other value, [None] included. *)
Inductive config_arg :=
| ConfigInstance (c : PineconeDbConfig)
| OtherValue (v : pyval).

Module Pinecone.

Section Adapter.

(** [PineconeDbConfig()], the configuration built with no argument, and the
    initialiser of the base class [BaseVectorDB]; both are defined outside
    this file of the repository. *)
Variable PineconeDbConfig_default : PineconeDbConfig.
Variable BaseVectorDB_init : PineconeDbConfig → M State unit.

(** [_get_index_name]: Pinecone only allows alphanumeric characters and "-"
    in the index name. *)
Definition _get_index_name (self : PineconeDb) : string :=
  replace "_" "-"
    (lower (collection_name (config self) +:+ "-" +:+ str_int (dimension (config self)))).

(** [_setup_pinecone_index]: loads the Pinecone index or creates it if not
    present. *)
Definition _setup_pinecone_index : M State Index :=
  do api_key <- gets (λ s, environ (world s) !! "PINECONE_API_KEY");
  do environment <- gets (λ s, environ (world s) !! "PINECONE_ENV");
  in_world (invoke (pinecone_init api_key environment));;
  do name <- gets (λ s, _get_index_name (self s));
  modify (with_index_name name);;
  do indexes <- in_world (invoke pinecone_list_indexes);
  do name <- attr "index_name" index_name;
  (if match indexes with
      | None => true
      | Some names => bool_decide (name ∉ names)
      end
   then
     do cfg <- gets (λ s, config (self s));
     in_world (invoke (pinecone_create_index name (metric cfg) (dimension cfg)))
   else ret tt);;
  do name <- attr "index_name" index_name;
  ret {| handle_name := name |}.

(** The object [__init__] starts from, once [self.config] is assigned. *)
Definition new_object (cfg : PineconeDbConfig) : PineconeDb :=
  {| config := cfg; index_name := None; client := None; embedder_attr := None |}.

Definition __init__ (config_ : config_arg) : M World PineconeDb :=
  λ w,
    let chosen :=
      match config_ with
      | OtherValue VNone => Returned PineconeDbConfig_default
      | ConfigInstance c => Returned c
      | OtherValue _ =>
          Raised (TypeError ("config is not a `PineconeDbConfig` instance. "
            +:+ "Please make sure the type is right and that you are passing an instance."))
      end in
    match chosen with
    | Raised e => (Raised e, w)
    | Returned cfg =>
        let body : M State unit :=
          do c <- _setup_pinecone_index;
          modify (with_client c);;
          do cfg' <- gets (λ s, config (self s));
          BaseVectorDB_init cfg' in
        match body {| self := new_object cfg; world := w |} with
        | (Returned _, s) => (Returned (self s), world s)
        | (Raised e, s) => (Raised e, world s)
        end
    end.

(** [_initialize]: needed because the [embedder] attribute is set from
    outside before the database can be initialised. *)
Definition _initialize : M State unit :=
  do e <- attr "embedder" embedder_attr;
  match e with
  | None =>
      raise (ValueError
        "Embedder not set. Please set an embedder with `set_embedder` before initialization.")
  | Some _ => ret tt
  end.

(** [count]: the number of vectors the service reports. *)
Definition count : M State Z :=
  do c <- attr "client" client;
  in_world (invoke (Index_describe_index_stats c)).

(** [get]: the ids present in the database. *)
Definition get (ids : option (list string)) (where_ : pyval) (limit : option Z)
  : M State pyval :=
  do dim <- gets (λ s, dimension (config (self s)));
  let zero_vector := foldl (λ v _, v ++ [VInt 0]) [] (range dim) in
  do c <- attr "client" client;
  do n <- count;
  do results <- in_world (invoke (Index_query c zero_vector (Z.max 1 n) where_ None));
  let ids : gset string := foldl (λ acc result, acc ∪ {[sv_id result]}) ∅ results in
  ret (VDict {["ids" := VSet ids]}).

(** [self.embedder.embedding_fn(texts)] *)
Definition embed (texts : list string) : M State (list (list pyval)) :=
  do e <- attr "embedder" embedder_attr;
  match e with
  | None => raise (AttributeError "'NoneType' object has no attribute 'embedding_fn'")
  | Some e => of_outcome (embedding_fn e texts)
  end.

(** The body of the loop of [add]: [metadata["text"] = text], then
    [docs.append({"id": id, "values": embedding, "metadata": metadata})]. *)
Definition add_doc (docs : list (string * list pyval * loc))
    (item : string * string * loc * list pyval) : M State (list (string * list pyval * loc)) :=
  let '(id, text, metadata, embedding) := item in
  in_world (setitem metadata "text" (VStr text));;
  ret (docs ++ [(id, embedding, metadata)]).

(** [add]: the metadata objects are the caller's; a record keeps the
    reference, and the service receives what it holds when [upsert] runs. *)
Definition add (documents : list string) (metadatas : list loc) (ids : list string)
  : M State unit :=
  do embeddings <- embed documents;
  do docs <- for_each add_doc (zip4 ids documents metadatas embeddings) [];
  do c <- attr "client" client;
  do vectors <- gets (λ s,
      (λ '(id, embedding, metadata),
         {| vec_id := id; vec_values := embedding;
            vec_metadata := deref metadata (world s) |}) <$> docs);
  in_world (invoke (Index_upsert c vectors));;
  ret tt.

(** [content["metadata"]["text"]]: a match without metadata fails as the
    client's model does, metadata without "text" as a dict does. *)
Definition metadata_text {Σ} (content : ScoredVector) : M Σ pyval :=
  match sv_metadata content with
  | None => raise (ApiAttributeError "ScoredVector has no attribute 'metadata'")
  | Some metadata =>
      match metadata !! "text" with
      | None => raise (KeyError "text")
      | Some text => ret text
      end
  end.

(** [query]: the contents most similar to the query. *)
Definition query (input_query : list string) (n_results : Z) (where_ : pyval)
  : M State (list pyval) :=
  do input_query_vector <- embed input_query;
  do query_vector <-
    match input_query_vector with
    | [] => raise (IndexError "list index out of range")
    | v :: _ => ret v
    end;
  do c <- attr "client" client;
  do contents <- in_world (invoke (Index_query c query_vector n_results where_ (Some true)));
  do embeddings <- map_M metadata_text contents;
  ret embeddings.

(** [set_collection_name] *)
Definition set_collection_name (name : pyval) : M State unit :=
  match name with
  | VStr name => modify (with_collection_name name)
  | _ => raise (TypeError "Collection name must be a string")
  end.

(** [_get_or_create_db]: called during initialization. *)
Definition _get_or_create_db : M State Index := attr "client" client.

(** [reset]: deletes the index and sets it up again. *)
Definition reset : M State unit :=
  do name <- attr "index_name" index_name;
  in_world (invoke (pinecone_delete_index name));;
  do _ <- _setup_pinecone_index;
  ret tt.

End Adapter.

(** *** The statements of the specification *)

(** The index name the specification describes: the lowercase of
    [collection_name + "-" + dimension], where every character that is
    neither alphanumeric nor "-" becomes "-". *)
Definition is_alnum (c : ascii) : bool := is_lower c || is_upper c || is_digit c.

Definition allowed_in_index_name (c : ascii) : bool :=
  is_lower c || is_digit c || Ascii.eqb c "-".

Fixpoint dash_non_alnum (s : string) : string :=
  match s with
  | EmptyString => EmptyString
  | String c s' =>
      String (if is_alnum c || Ascii.eqb c "-" then c else "-"%char) (dash_non_alnum s')
  end.

Definition spec_index_name (cfg : PineconeDbConfig) : string :=
  dash_non_alnum (lower (collection_name cfg +:+ "-" +:+ str_int (dimension cfg))).

(** A computation raises an exception of class [cls]. *)
Definition raises {Σ A} (cls : string) (r : outcome A * Σ) : Prop :=
  ∃ e, r.1 = Raised e ∧ exn_class e = cls.

(** The calls a computation added to the history. *)
Definition calls_since (before after : World) (new : list call) : Prop :=
  calls after = calls before ++ new.

(** *** The loop of [add], as a function of the heap

    One tuple of the zip is [(id, text, metadata, embedding)]. *)
Abbreviation zipped := (string * string * loc * list pyval)%type.

Definition is_dict (v : pyval) : Prop := ∃ d, v = VDict d.

(** The heap once [metadata["text"] = text] has run on a dict. *)
Definition store_text (h : gmap loc pyval) (z : zipped) : gmap loc pyval :=
  match default VNone (h !! z.1.2) with
  | VDict d => <[z.1.2 := VDict (<["text" := VStr z.1.1.2]> d)]> h
  | _ => h
  end.

Definition heap_after (zs : list zipped) (h : gmap loc pyval) : gmap loc pyval :=
  foldl store_text h zs.

(** The text of the last tuple of [zs] whose metadata is the object [l]. *)
Fixpoint last_text (zs : list zipped) (l : loc) : option string :=
  match zs with
  | [] => None
  | z :: zs' =>
      match last_text zs' l with
      | Some text => Some text
      | None => if decide (z.1.2 = l) then Some z.1.1.2 else None
      end
  end.

(** The record built from one tuple, the metadata read in the world [w]. *)
Definition vector_of (w : World) (z : zipped) : Vector :=
  {| vec_id := z.1.1.1; vec_values := z.2; vec_metadata := deref z.1.2 w |}.

(** *** Notions used in the further properties *)

(** The characters of a collection name that [_get_index_name] turns into
    allowed ones: letters, digits, "_" and "-". *)
Definition safe_in_collection_name (c : ascii) : bool :=
  is_alnum c || Ascii.eqb c "_" || Ascii.eqb c "-".

(** An object is as it was, or it was a dict and only its "text" entry was
    set. *)
Definition only_text_changed (before after : pyval) : Prop :=
  after = before
  ∨ ∃ d text, before = VDict d ∧ after = VDict (<["text" := VStr text]> d).

(** The first call of [_setup_pinecone_index], with the credentials of the
    environment. *)
Definition init_call (w : World) : call :=
  pinecone_init (environ w !! "PINECONE_API_KEY") (environ w !! "PINECONE_ENV").

(** Whether the answer of [list_indexes] lacks the index [name]. *)
Definition index_missing (indexes : option (list string)) (name : string) : bool :=
  match indexes with
  | None => true
  | Some names => bool_decide (name ∉ names)
  end.

(** The calls [_setup_pinecone_index] makes for the configuration [cfg] when
    the service answers [indexes] to [list_indexes]. *)
Definition setup_calls (w : World) (cfg : PineconeDbConfig) (name : string)
    (indexes : option (list string)) : list call :=
  [init_call w; pinecone_list_indexes]
  ++ (if index_missing indexes name
      then [pinecone_create_index name (metric cfg) (dimension cfg)]
      else []).

(** A service on which the sample index does not exist yet, and one that
    refuses every call. *)
Definition empty_service (history : list call) (c : call) : outcome (reply c) :=
  match c return outcome (reply c) with
  | pinecone_list_indexes => Returned (Some [])
  | Index_query _ _ _ _ _ => Returned []
  | Index_describe_index_stats _ => Returned 0
  | _ => Returned tt
  end.

(** A service whose matches come without metadata. *)
Definition bare_service (history : list call) (c : call) : outcome (reply c) :=
  match c return outcome (reply c) with
  | pinecone_list_indexes => Returned (Some ["embedchain-store-3"])
  | Index_query _ _ _ _ _ => Returned [ {| sv_id := "id1"; sv_metadata := None |} ]
  | Index_describe_index_stats _ => Returned 1
  | _ => Returned tt
  end.

(** A service whose matches carry metadata without a "text". *)
Definition textless_service (history : list call) (c : call) : outcome (reply c) :=
  match c return outcome (reply c) with
  | pinecone_list_indexes => Returned (Some ["embedchain-store-3"])
  | Index_query _ _ _ _ _ =>
      Returned [ {| sv_id := "id1"; sv_metadata := Some {[ "url" := VStr "u" ]} |} ]
  | Index_describe_index_stats _ => Returned 1
  | _ => Returned tt
  end.

Definition service_down : exn := Exn "PineconeException" "service unavailable".

Definition failing_service (history : list call) (c : call) : outcome (reply c) :=
  Raised service_down.

Definition world_with (svc : list call → ∀ c : call, outcome (reply c)) : World :=
  {| environ := {[ "PINECONE_API_KEY" := "key" ]};
     heap := {[ 1%positive := VDict ∅; 2%positive := VDict {[ "url" := VStr "u" ]};
                3%positive := VStr "not a dict" ]};
     calls := [];
     service := svc |}.

(** *** Sample worlds

    Concrete configurations, services and states on which the statements
    below are run. *)

Definition sample_config : PineconeDbConfig :=
  {| collection_name := "embedchain_store"; dimension := 3; metric := "cosine" |}.

Definition spaced_config : PineconeDbConfig :=
  {| collection_name := "My Docs"; dimension := 1536; metric := "cosine" |}.

(** A service that holds two records and accepts every call. *)
Definition sample_matches : list ScoredVector :=
  [ {| sv_id := "id1"; sv_metadata := Some {[ "text" := VStr "hello world" ]} |};
    {| sv_id := "id2"; sv_metadata := Some {[ "text" := VStr "good bye" ]} |} ].

Definition sample_service (history : list call) (c : call) : outcome (reply c) :=
  match c return outcome (reply c) with
  | pinecone_list_indexes => Returned (Some ["embedchain-store-3"])
  | Index_query _ _ _ _ _ => Returned sample_matches
  | Index_describe_index_stats _ => Returned 2
  | _ => Returned tt
  end.

(** The vector (0.5, -0.25, 0.0). *)
Definition sample_vector : list pyval :=
  [VFloat (S754_finite false 1 (-1)); VFloat (S754_finite true 1 (-2)); VFloat (S754_zero false)].

(** The embedder gives one vector per text but never more than two. *)
Definition sample_embedder : Embedder :=
  {| embedding_fn := λ texts, Returned (take 2 ((λ _, sample_vector) <$> texts)) |}.

Definition sample_world : World :=
  {| environ := {[ "PINECONE_API_KEY" := "key" ]};
     heap := {[ 1%positive := VDict ∅; 2%positive := VDict {[ "url" := VStr "u" ]} ]};
     calls := [];
     service := sample_service |}.

(** The same world later on, after a call was made. *)
Definition later_world : World :=
  {| environ := ∅;
     heap := ∅;
     calls := [Index_describe_index_stats {| handle_name := "embedchain-store-3" |}];
     service := sample_service |}.

Definition sample_index : Index := {| handle_name := "embedchain-store-3" |}.

Definition sample_db (e : option Embedder) : PineconeDb :=
  {| config := sample_config;
     index_name := Some "embedchain-store-3";
     client := Some sample_index;
     embedder_attr := match e with Some e => Some (Some e) | None => None end |}.

(** The sample object once [None] was assigned as its embedder. *)
Definition none_assigned_state : State :=
  {| self := {| config := sample_config;
                index_name := Some "embedchain-store-3";
                client := Some sample_index;
                embedder_attr := Some None |};
     world := sample_world |}.

Definition sample_state (e : option Embedder) : State :=
  {| self := sample_db e; world := sample_world |}.

Definition sample_base_init (cfg : PineconeDbConfig) : M State unit := ret tt.

End Pinecone.

(** * Properties *)

Module PineconeFacts.
Import Pinecone.

(** ** The index name *)

Example index_name_default :
  _get_index_name (sample_db None) = "embedchain-store-3".
Proof. vm_compute. reflexivity. Qed.

(** C1. The claim says that the derived index name is the lowercase of
    [collection_name + "-" + dimension] with every non-alphanumeric character
    other than "-" replaced by "-", so that it only holds lowercase
    alphanumerics and "-".  [_get_index_name] replaces "_" only: for the
    collection name "My Docs" and dimension 1536 it yields "my docs-1536",
    which differs from the specified name "my-docs-1536" and holds a space. *)
Theorem get_index_name_keeps_space :
  _get_index_name (new_object spaced_config) = "my docs-1536"
  ∧ spec_index_name spaced_config = "my-docs-1536"
  ∧ string_forallb allowed_in_index_name (_get_index_name (new_object spaced_config)) = false.
Proof. repeat split; vm_compute; reflexivity. Qed.

(** ** Errors *)

Lemma raises_Raised {Σ A} cls (e : exn) (σ : Σ) :
  raises (A := A) cls (Raised e, σ) ↔ exn_class e = cls.
Proof.
  unfold raises; simpl. split.
  - intros (e' & [= <-] & Hc). exact Hc.
  - intros Hc. exists e. split; [reflexivity | exact Hc].
Qed.

Lemma raises_Returned {Σ A} cls (a : A) (σ : Σ) :
  ¬ raises cls (Returned a, σ).
Proof. intros (e & He & _). simpl in He. discriminate. Qed.

(** The attached embedder, read back from the attribute. *)
Lemma embedder_Some (db : PineconeDb) (e : Embedder) :
  embedder db = Some e ↔ embedder_attr db = Some (Some e).
Proof.
  unfold embedder. split.
  - destruct (embedder_attr db) as [[e'|]|]; [by intros [= ->] | done | done].
  - by intros ->.
Qed.

Lemma embedder_None (db : PineconeDb) :
  embedder db = None ↔ embedder_attr db = None ∨ embedder_attr db = Some None.
Proof.
  unfold embedder. destruct (embedder_attr db) as [[e'|]|]; split; try done; eauto.
  intros [[=]|[=]].
Qed.

(** What [self.embedder.embedding_fn(texts)] computes. *)
Lemma embed_attached (s : State) (e : Embedder) (texts : list string) :
  embedder (self s) = Some e → embed texts s = (embedding_fn e texts, s).
Proof.
  intros He%embedder_Some. unfold embed, bind, attr, of_outcome. by rewrite He.
Qed.

Lemma embed_unattached (s : State) (texts : list string) :
  embedder (self s) = None → ∃ msg, embed texts s = (Raised (AttributeError msg), s).
Proof.
  intros [He|He]%embedder_None; unfold embed, bind, attr; rewrite He; by eexists.
Qed.

(** What [_initialize] computes. *)
Lemma initialize_eq s :
  _initialize s =
    (match embedder_attr (self s) with
     | None => Raised (AttributeError "embedder")
     | Some None => Raised (ValueError
         "Embedder not set. Please set an embedder with `set_embedder` before initialization.")
     | Some (Some _) => Returned tt
     end, s).
Proof.
  unfold _initialize, bind, attr.
  destruct (embedder_attr (self s)) as [[e|]|]; reflexivity.
Qed.

(** The claim C4 as stated, at an object whose embedder is [None]:
    [_initialize] would raise [ConfigurationError] exactly when no embedder
    is attached.  None is attached, and the exception is a [ValueError]. *)
Lemma initialize_not_ConfigurationError :
  ¬ (raises "ConfigurationError" (_initialize none_assigned_state)
     ↔ embedder (self none_assigned_state) = None).
Proof.
  rewrite initialize_eq. simpl. rewrite raises_Raised.
  intros [_ H]. specialize (H eq_refl). discriminate H.
Qed.

(** C4, amended. On an object whose [embedder] attribute has been assigned,
    [_initialize] raises [ValueError] if and only if no embedder is attached
    (the attribute holds [None]) and returns if and only if one is.  In both
    cases the state, the history of service calls included, is left as it
    was. *)
Theorem initialize_raises_ValueError (s : State) (v : option Embedder) :
  embedder_attr (self s) = Some v →
  (raises "ValueError" (_initialize s) ↔ embedder (self s) = None)
  ∧ (is_Some (embedder (self s)) ↔ (_initialize s).1 = Returned tt)
  ∧ (_initialize s).2 = s.
Proof.
  intros Hv. rewrite initialize_eq. unfold embedder. rewrite Hv.
  destruct v as [e|]; simpl.
  - split; [|split; [|reflexivity]].
    + split; [intros H; by apply raises_Returned in H | discriminate].
    + split; [reflexivity | eauto].
  - split; [|split; [|reflexivity]].
    + rewrite raises_Raised. split; reflexivity.
    + split; [intros [? [=]] | discriminate].
Qed.

Lemma initialize_raises_ValueError_witness :
  (raises "ValueError" (_initialize none_assigned_state)
   ↔ embedder (self none_assigned_state) = None)
  ∧ (_initialize none_assigned_state).2 = none_assigned_state.
Proof.
  destruct (initialize_raises_ValueError none_assigned_state None eq_refl) as (Hr & _ & Hs).
  split; [exact Hr | exact Hs].
Defined.

(** What [__init__] computes on a value that is not a configuration. *)
Lemma init_other_value_eq dflt base (v : pyval) (w : World) :
  v ≠ VNone →
  __init__ dflt base (OtherValue v) w =
    (Raised (TypeError ("config is not a `PineconeDbConfig` instance. "
       +:+ "Please make sure the type is right and that you are passing an instance.")), w).
Proof. intros Hv. unfold __init__. destruct v; done. Qed.

(** The claim C5 as stated, at a plain dict passed as [config]: the
    constructor would raise [ConfigurationError].  It raises [TypeError]. *)
Lemma init_not_ConfigurationError :
  ¬ raises "ConfigurationError"
      (__init__ sample_config sample_base_init (OtherValue (VDict ∅)) sample_world).
Proof. rewrite init_other_value_eq by discriminate. rewrite raises_Raised. discriminate. Qed.

(** C5, amended. Constructing the adapter with a [config] that is neither
    [None] nor a [PineconeDbConfig] raises [TypeError], and the world is left
    as it was: no service call is recorded, whatever the default
    configuration and the base initialiser are. *)
Theorem init_wrong_type_raises_TypeError dflt base (v : pyval) (w : World) :
  v ≠ VNone →
  raises "TypeError" (__init__ dflt base (OtherValue v) w)
  ∧ (__init__ dflt base (OtherValue v) w).2 = w
  ∧ calls (__init__ dflt base (OtherValue v) w).2 = calls w.
Proof.
  intros Hv. rewrite init_other_value_eq by exact Hv.
  rewrite raises_Raised. done.
Qed.

Lemma init_wrong_type_raises_TypeError_witness :
  raises "TypeError"
    (__init__ sample_config sample_base_init (OtherValue (VStr "config")) sample_world)
  ∧ (__init__ sample_config sample_base_init (OtherValue (VStr "config")) sample_world).2
    = sample_world
  ∧ calls (__init__ sample_config sample_base_init (OtherValue (VStr "config")) sample_world).2
    = calls sample_world.
Proof.
  apply (init_wrong_type_raises_TypeError sample_config sample_base_init
           (VStr "config") sample_world).
  discriminate.
Defined.

(** ** The collection name *)

Lemma set_collection_name_eq name s :
  set_collection_name name s =
    match name with
    | VStr n => (Returned tt, with_collection_name n s)
    | _ => (Raised (TypeError "Collection name must be a string"), s)
    end.
Proof. destruct name; reflexivity. Qed.

(** The claim C6 as stated, at the integer 5: [set_collection_name] would
    raise [InputError] exactly when the name is not a string.  The name is
    not a string and the exception is a [TypeError]. *)
Lemma set_collection_name_not_InputError :
  ¬ (raises "InputError" (set_collection_name (VInt 5) (sample_state None))
     ↔ isinstance_str (VInt 5) = false).
Proof.
  rewrite set_collection_name_eq, raises_Raised. simpl.
  intros [_ H]. specialize (H eq_refl). discriminate H.
Qed.

(** C6, amended. [set_collection_name] raises [TypeError] if and only if the
    name is not a string, and then the whole state, the configuration
    included, is left as it was; a string is stored as the collection name. *)
Theorem set_collection_name_raises_TypeError (name : pyval) (s : State) :
  (raises "TypeError" (set_collection_name name s) ↔ isinstance_str name = false)
  ∧ (set_collection_name name s).2 =
      match name with
      | VStr n => with_collection_name n s
      | _ => s
      end.
Proof.
  rewrite set_collection_name_eq.
  destruct name; simpl; (split; [|reflexivity]);
    first [ rewrite raises_Raised; split; reflexivity
          | split; [intros H; by apply raises_Returned in H | discriminate] ].
Qed.

(** C8. For a string [name], [set_collection_name] returns and changes the
    [collection_name] field of the configuration only: dimension and metric,
    the index name derived earlier, the client handle, the embedder and the
    world (no service call) are unchanged.  The name shows in what
    [_get_index_name] derives next. *)
Theorem set_collection_name_frame (name : string) (s : State) :
  let r := set_collection_name (VStr name) s in
  r.1 = Returned tt
  ∧ collection_name (config (self r.2)) = name
  ∧ dimension (config (self r.2)) = dimension (config (self s))
  ∧ metric (config (self r.2)) = metric (config (self s))
  ∧ index_name (self r.2) = index_name (self s)
  ∧ client (self r.2) = client (self s)
  ∧ embedder_attr (self r.2) = embedder_attr (self s)
  ∧ world r.2 = world s
  ∧ _get_index_name (self r.2)
    = replace "_" "-" (lower (name +:+ "-" +:+ str_int (dimension (config (self s))))).
Proof. simpl. repeat split. Qed.

Example set_collection_name_keeps_index :
  let r := set_collection_name (VStr "Other") (sample_state None) in
  index_name (self r.2) = Some "embedchain-store-3"
  ∧ _get_index_name (self r.2) = "other-3".
Proof. split; vm_compute; reflexivity. Qed.

(** ** Listing ids *)

(** C10. The [ids] and [limit] arguments of [get] have no effect.  Two calls
    with the same filter, on the same adapter and with a service that gives
    the same answers, return the same value (or raise the same exception)
    whatever [ids] and [limit] are; on one and the same state the final
    states agree too. *)
Theorem get_ignores_ids_and_limit
    (ids1 ids2 : option (list string)) (limit1 limit2 : option Z)
    (where_ : pyval) (s1 s2 : State) :
  self s1 = self s2 →
  (∀ c, service (world s1) (calls (world s1)) c
        = service (world s2) (calls (world s2)) c) →
  (∀ c c', service (world s1) (calls (world s1) ++ [c]) c'
           = service (world s2) (calls (world s2) ++ [c]) c') →
  (get ids1 where_ limit1 s1).1 = (get ids2 where_ limit2 s2).1
  ∧ get ids1 where_ limit1 s1 = get ids2 where_ limit2 s1.
Proof.
  intros Hself Hfirst Hsecond. split; [|reflexivity].
  unfold get, count, bind, gets, attr, in_world, invoke, ret. rewrite Hself.
  destruct (client (self s2)) as [c|]; simpl; [|reflexivity].
  rewrite Hself. destruct (client (self s2)) as [c'|]; simpl; [|reflexivity].
  rewrite Hfirst.
  destruct (service (world s2) (calls (world s2)) (Index_describe_index_stats c'))
    as [n|err]; simpl; [|reflexivity].
  rewrite Hsecond.
  match goal with
  | |- context [service (world s2) ?h ?q] => destruct (service (world s2) h q) as [ms|err]
  end; reflexivity.
Qed.

Lemma get_ignores_ids_and_limit_witness :
  (get None VNone None (sample_state None)).1
  = (get (Some ["id1"]) VNone (Some 1)
       {| self := sample_db None; world := later_world |}).1.
Proof.
  apply (get_ignores_ids_and_limit None (Some ["id1"]) None (Some 1) VNone
           (sample_state None) {| self := sample_db None; world := later_world |}
           eq_refl (λ _, eq_refl) (λ _ _, eq_refl)).
Defined.

(** The loop of [get] that fills [zero_vector]. *)
Lemma zero_vector_loop (acc : list pyval) (a n : nat) :
  foldl (λ v (_ : Z), v ++ [VInt 0]) acc (Z.of_nat <$> seq a n)
  = acc ++ replicate n (VInt 0).
Proof.
  revert acc a. induction n as [|n IH]; intros acc a; simpl.
  - by rewrite app_nil_r.
  - rewrite IH. by rewrite <- app_assoc.
Qed.

Lemma zero_vector_eq (dim : Z) :
  foldl (λ v (_ : Z), v ++ [VInt 0]) [] (range dim) = replicate (Z.to_nat dim) (VInt 0).
Proof. unfold range. by rewrite zero_vector_loop. Qed.

(** The loop of [get] that collects the ids. *)
Lemma ids_loop (acc : gset string) (results : list ScoredVector) :
  foldl (λ acc result, acc ∪ {[sv_id result]}) acc results
  = acc ∪ list_to_set (sv_id <$> results).
Proof.
  revert acc. induction results as [|r rs IH]; intros acc; simpl.
  - set_solver.
  - rewrite IH. set_solver.
Qed.

(** What [get] computes when the service answers both calls. *)
Lemma get_eq ids where_ limit (s : State) (c : Index) (n : Z) (matches : list ScoredVector) :
  client (self s) = Some c →
  service (world s) (calls (world s)) (Index_describe_index_stats c) = Returned n →
  service (world s) (calls (world s) ++ [Index_describe_index_stats c])
    (Index_query c (replicate (Z.to_nat (dimension (config (self s)))) (VInt 0))
       (Z.max 1 n) where_ None) = Returned matches →
  get ids where_ limit s =
    (Returned (VDict {[ "ids" := VSet (list_to_set (sv_id <$> matches)) ]}),
     with_world
       (with_calls
          (calls (world s) ++
             [Index_describe_index_stats c;
              Index_query c (replicate (Z.to_nat (dimension (config (self s)))) (VInt 0))
                (Z.max 1 n) where_ None])
          (world s)) s).
Proof.
  intros Hc Hn Hq.
  unfold get, count, bind, gets, attr, in_world, invoke, ret.
  rewrite zero_vector_eq. rewrite Hc. simpl. rewrite Hc. simpl.
  rewrite Hn. simpl. rewrite Hq. simpl.
  rewrite ids_loop, (left_id_L ∅ (∪)).
  unfold with_world, with_calls; simpl. by rewrite <- app_assoc.
Qed.

(** C7. The claim, like the docstring of [get] ([:rtype: Set[str]]), says
    that [get] returns the set of the ids of the matches.  On the sample
    state, where the service reports two vectors and answers with the matches
    "id1" and "id2", [get] makes the calls the claim describes and then
    returns the dict [{"ids": {"id1", "id2"}}]: a dict that holds the set,
    not the set. *)
Theorem get_returns_dict_not_set :
  (get None VNone None (sample_state None)).1
  = Returned (VDict {[ "ids" := VSet {[ "id1"; "id2" ]} ]})
  ∧ calls (world (get None VNone None (sample_state None)).2)
    = [Index_describe_index_stats sample_index;
       Index_query sample_index [VInt 0; VInt 0; VInt 0] 2 VNone None]
  ∧ ¬ ∃ ids : gset string,
        (get None VNone None (sample_state None)).1 = Returned (VSet ids).
Proof.
  rewrite (get_eq None VNone None (sample_state None) sample_index 2 sample_matches)
    by reflexivity.
  split; [|split; [reflexivity|]].
  - vm_compute. reflexivity.
  - intros [ids H]. discriminate H.
Qed.

(** X16. When the client is set and the service answers, [get] asks for the
    vector count and then issues one similarity query, with a vector of
    [dimension] zeros (none if [dimension] is negative), [top_k = max(1,
    count)], the given filter and no metadata flag; it returns the dict
    [{"ids": ids}] where [ids] is the set of the ids of the matches. *)
Theorem get_returns_ids_dict ids where_ limit (s : State) (c : Index) (n : Z)
    (matches : list ScoredVector) :
  let zero_vector := replicate (Z.to_nat (dimension (config (self s)))) (VInt 0) in
  let new_calls :=
    [Index_describe_index_stats c; Index_query c zero_vector (Z.max 1 n) where_ None] in
  client (self s) = Some c →
  service (world s) (calls (world s)) (Index_describe_index_stats c) = Returned n →
  service (world s) (calls (world s) ++ [Index_describe_index_stats c])
    (Index_query c zero_vector (Z.max 1 n) where_ None) = Returned matches →
  (get ids where_ limit s).1
    = Returned (VDict {[ "ids" := VSet (list_to_set (sv_id <$> matches)) ]})
  ∧ calls_since (world s) (world (get ids where_ limit s).2) new_calls
  ∧ length (filter (λ c, is_query c = true) new_calls) = 1%nat
  ∧ length zero_vector = Z.to_nat (dimension (config (self s)))
  ∧ (∀ id, id ∈ (list_to_set (sv_id <$> matches) : gset string)
           ↔ ∃ m, m ∈ matches ∧ sv_id m = id)
  ∧ self (get ids where_ limit s).2 = self s
  ∧ heap (world (get ids where_ limit s).2) = heap (world s).
Proof.
  intros zero_vector new_calls Hc Hn Hq.
  rewrite (get_eq ids where_ limit s c n matches Hc Hn Hq).
  repeat split.
  - apply length_replicate.
  - rewrite elem_of_list_to_set, list_elem_of_fmap. intros (m & -> & Hm). eauto.
  - intros (m & Hm & <-). rewrite elem_of_list_to_set, list_elem_of_fmap. eauto.
Qed.

Lemma get_returns_ids_dict_witness :
  (get None VNone (Some 1) (sample_state None)).1
    = Returned (VDict {[ "ids" := VSet (list_to_set (sv_id <$> sample_matches)) ]})
  ∧ calls (world (get None VNone (Some 1) (sample_state None)).2)
    = [Index_describe_index_stats sample_index;
       Index_query sample_index [VInt 0; VInt 0; VInt 0] 2 VNone None].
Proof.
  destruct (get_returns_ids_dict None VNone (Some 1) (sample_state None) sample_index 2
              sample_matches eq_refl eq_refl eq_refl) as (Hr & Hcalls & _).
  split; [exact Hr | exact Hcalls].
Defined.

(** ** Queries *)

(** Reading the texts of the matches succeeds when each match has one. *)
Lemma map_M_metadata_text {Σ} (matches : list ScoredVector) (texts : list pyval) (σ : Σ) :
  Forall2 (λ m t, ∃ md, sv_metadata m = Some md ∧ md !! "text" = Some t) matches texts →
  map_M metadata_text matches σ = (Returned texts, σ).
Proof.
  induction 1 as [|m t ms ts (md & Hmd & Ht) _ IH]; simpl.
  - reflexivity.
  - unfold bind, metadata_text at 1. rewrite Hmd, Ht. unfold ret at 1.
    unfold bind in IH. rewrite IH. reflexivity.
Qed.

(** C3. When the embedder gives at least one vector for the query list, the
    client is set, and the service answers with matches that each carry a
    "text", [query] hands the whole list to the embedder, issues exactly one
    similarity search, with the first vector, [top_k = n_results], the filter
    and [include_metadata=True], and returns the "text" of each match in the
    order of the answer. *)
Theorem query_uses_first_embedding (s : State) (e : Embedder) (c : Index)
    (input_query : list string) (n_results : Z) (where_ : pyval)
    (v : list pyval) (vs : list (list pyval))
    (matches : list ScoredVector) (texts : list pyval) :
  embedder (self s) = Some e →
  embedding_fn e input_query = Returned (v :: vs) →
  client (self s) = Some c →
  service (world s) (calls (world s)) (Index_query c v n_results where_ (Some true))
    = Returned matches →
  Forall2 (λ m t, ∃ md, sv_metadata m = Some md ∧ md !! "text" = Some t) matches texts →
  (query input_query n_results where_ s).1 = Returned texts
  ∧ calls_since (world s) (world (query input_query n_results where_ s).2)
      [Index_query c v n_results where_ (Some true)]
  ∧ self (query input_query n_results where_ s).2 = self s
  ∧ heap (world (query input_query n_results where_ s).2) = heap (world s).
Proof.
  intros He%embedder_Some Hv Hc Hq Htexts.
  unfold query, embed, bind, of_outcome, attr, in_world, invoke.
  rewrite He, Hv. simpl. rewrite Hc. simpl. rewrite Hq. simpl.
  pose proof (map_M_metadata_text matches texts
    (with_world (with_calls (calls (world s) ++
       [Index_query c v n_results where_ (Some true)]) (world s)) s) Htexts) as Hm.
  rewrite Hm. simpl. repeat split.
Qed.

Lemma query_uses_first_embedding_witness :
  (query ["hello"; "bye"] 2 VNone (sample_state (Some sample_embedder))).1
    = Returned [VStr "hello world"; VStr "good bye"]
  ∧ calls (world (query ["hello"; "bye"] 2 VNone (sample_state (Some sample_embedder))).2)
    = [Index_query sample_index sample_vector 2 VNone (Some true)].
Proof.
  assert (Forall2 (λ m t, ∃ md, sv_metadata m = Some md ∧ md !! "text" = Some t)
            sample_matches [VStr "hello world"; VStr "good bye"]) as Htexts.
  { repeat constructor; eexists; (split; [reflexivity | reflexivity]). }
  destruct (query_uses_first_embedding (sample_state (Some sample_embedder))
              sample_embedder sample_index ["hello"; "bye"] 2 VNone
              sample_vector [sample_vector]
              sample_matches [VStr "hello world"; VStr "good bye"]
              eq_refl eq_refl eq_refl eq_refl Htexts) as (Hr & Hcalls & _).
  split; [exact Hr | exact Hcalls].
Defined.

(** ** Adding documents *)

Lemma zip4_length {A B C D} (a : list A) (b : list B) (c : list C) (d : list D) :
  length (zip4 a b c d)
  = (length a `min` (length b `min` (length c `min` length d)))%nat.
Proof.
  revert b c d. induction a as [|x a IH]; intros [|y b] [|z c] [|u d]; simpl; try done.
  by rewrite IH.
Qed.

Lemma zip4_lookup {A B C D} (a : list A) (b : list B) (c : list C) (d : list D)
    (i : nat) x y z u :
  zip4 a b c d !! i = Some (x, y, z, u)
  ↔ a !! i = Some x ∧ b !! i = Some y ∧ c !! i = Some z ∧ d !! i = Some u.
Proof.
  revert b c d i.
  induction a as [|x' a IH]; intros [|y' b] [|z' c] [|u' d] i; simpl;
    try (split; [done | intros (?&?&?&?); done]).
  destruct i as [|i]; simpl.
  - split; [by intros [= -> -> -> ->] | by intros ([= ->] & [= ->] & [= ->] & [= ->])].
  - apply IH.
Qed.

Lemma zip4_Forall_metadata {A B D} (P : loc → Prop)
    (a : list A) (b : list B) (c : list loc) (d : list D) :
  Forall P c → Forall (λ z, P z.1.2) (zip4 a b c d).
Proof.
  intros Hc. revert a b d.
  induction Hc as [|l c Hl _ IH]; intros [|x a] [|y b] [|u d]; simpl;
    try constructor; auto.
Qed.

Lemma zip4_ids {A B C D} (a : list A) (b : list B) (c : list C) (d : list D) :
  (λ z, z.1.1.1) <$> zip4 a b c d = take (length (zip4 a b c d)) a.
Proof.
  revert b c d. induction a as [|x a IH]; intros [|y b] [|z c] [|u d]; simpl; try done.
  by rewrite IH.
Qed.

Lemma zip4_embeddings {A B C D} (a : list A) (b : list B) (c : list C) (d : list D) :
  (λ z, z.2) <$> zip4 a b c d = take (length (zip4 a b c d)) d.
Proof.
  revert b c d. induction a as [|x a IH]; intros [|y b] [|z c] [|u d]; simpl; try done.
  by rewrite IH.
Qed.

(** Storing a text keeps every dict a dict. *)
Lemma store_text_is_dict (h : gmap loc pyval) (z : zipped) (l : loc) :
  is_dict (default VNone (h !! l)) → is_dict (default VNone (store_text h z !! l)).
Proof.
  intros Hl. unfold store_text.
  destruct (default VNone (h !! z.1.2)) eqn:Hz; try exact Hl.
  destruct (decide (z.1.2 = l)) as [->|Hne].
  - rewrite lookup_insert_eq. simpl. by eexists.
  - by rewrite lookup_insert_ne.
Qed.

(** The loop of [add]: on dicts it never raises; it appends one record per
    tuple and leaves the heap that [heap_after] describes. *)
Lemma add_loop (zs : list zipped) (acc : list (string * list pyval * loc))
    (sf : PineconeDb) (w : World) :
  Forall (λ z, is_dict (deref z.1.2 w)) zs →
  for_each add_doc zs acc {| self := sf; world := w |}
  = (Returned (acc ++ ((λ z, (z.1.1.1, z.2, z.1.2)) <$> zs)),
     {| self := sf; world := with_heap (heap_after zs (heap w)) w |}).
Proof.
  revert acc w. induction zs as [|[[[id text] l] emb] zs IH]; intros acc w Hzs.
  - simpl. rewrite app_nil_r. by destruct w.
  - apply Forall_cons in Hzs as [[d Hd] Hzs]. simpl in Hd.
    simpl. unfold bind at 1. unfold add_doc at 1.
    unfold bind at 1. unfold in_world, setitem. simpl.
    rewrite Hd. unfold ret at 1. unfold with_world. simpl.
    rewrite IH.
    + unfold heap_after, store_text, with_heap. simpl.
      unfold deref in Hd. rewrite Hd. by rewrite <- app_assoc.
    + eapply Forall_impl; [exact Hzs|]. intros z Hz. unfold deref, with_heap; simpl.
      pose proof (store_text_is_dict (heap w) (id, text, l, emb) z.1.2 Hz) as Hs.
      unfold store_text in Hs. simpl in Hs. unfold deref in Hd. by rewrite Hd in Hs.
Qed.

(** What [add] computes when the embedder answers and the metadata objects
    are dicts: the loop runs to its end, and then the client, if set, is
    called once. *)
Lemma add_eq (documents : list string) (metadatas : list loc) (ids : list string)
    (s : State) (e : Embedder) (embeddings : list (list pyval)) :
  embedder (self s) = Some e →
  embedding_fn e documents = Returned embeddings →
  Forall (λ l, is_dict (deref l (world s))) metadatas →
  let zs := zip4 ids documents metadatas embeddings in
  let w1 := with_heap (heap_after zs (heap (world s))) (world s) in
  add documents metadatas ids s =
    match client (self s) with
    | None => (Raised (AttributeError "client"), {| self := self s; world := w1 |})
    | Some c =>
        (match service w1 (calls w1) (Index_upsert c (vector_of w1 <$> zs)) with
         | Returned _ => Returned tt
         | Raised e => Raised e
         end,
         {| self := self s;
            world := with_calls (calls w1 ++ [Index_upsert c (vector_of w1 <$> zs)]) w1 |})
    end.
Proof.
  destruct s as [sf w]. simpl. intros He Hemb Hdict.
  unfold add. unfold bind at 1.
  rewrite (embed_attached {| self := sf; world := w |} e documents He), Hemb.
  unfold bind at 1.
  rewrite add_loop
    by exact (zip4_Forall_metadata (λ l, is_dict (deref l w)) _ _ _ _ Hdict).
  unfold bind at 1, attr. simpl.
  destruct (client sf) as [c|]; [|reflexivity].
  unfold bind at 1, gets. simpl.
  rewrite <- list_fmap_compose.
  rewrite (list_fmap_ext _
    (vector_of (with_heap (heap_after (zip4 ids documents metadatas embeddings) (heap w)) w)));
    [|by intros i [[[??]?]?] _].
  unfold bind, in_world, invoke, with_world, ret. simpl.
  match goal with |- context [service w ?h ?c] => destruct (service w h c) as [[]|err] end;
    reflexivity.
Qed.

(** C2. When the embedder answers, the metadata objects are dicts, the client
    is set and the service accepts the upsert, [add] returns without raising,
    whatever the lengths of the four sequences: it makes exactly one service
    call, an upsert, whose records are as many as the shortest of [ids],
    [documents], [metadatas] and the embeddings, and carry the first ids and
    embeddings in order. *)
Theorem add_truncates_silently (documents : list string) (metadatas : list loc)
    (ids : list string) (s : State) (e : Embedder) (c : Index)
    (embeddings : list (list pyval)) :
  embedder (self s) = Some e →
  embedding_fn e documents = Returned embeddings →
  client (self s) = Some c →
  Forall (λ l, is_dict (deref l (world s))) metadatas →
  (∀ vectors, service (world s) (calls (world s)) (Index_upsert c vectors) = Returned tt) →
  ∃ vectors : list Vector,
    (add documents metadatas ids s).1 = Returned tt
    ∧ calls_since (world s) (world (add documents metadatas ids s).2) [Index_upsert c vectors]
    ∧ length vectors
      = (length ids `min` (length documents `min`
          (length metadatas `min` length embeddings)))%nat
    ∧ vec_id <$> vectors = take (length vectors) ids
    ∧ vec_values <$> vectors = take (length vectors) embeddings.
Proof.
  intros He Hemb Hc Hdict Hsvc.
  rewrite (add_eq documents metadatas ids s e embeddings He Hemb Hdict), Hc.
  set (zs := zip4 ids documents metadatas embeddings).
  set (w1 := with_heap (heap_after zs (heap (world s))) (world s)).
  exists (vector_of w1 <$> zs). simpl.
  rewrite Hsvc. rewrite length_fmap.
  split; [reflexivity|]. split; [reflexivity|].
  split; [apply zip4_length|].
  rewrite <- !list_fmap_compose. split.
  - apply zip4_ids.
  - apply zip4_embeddings.
Qed.

Lemma sample_metadatas_are_dicts :
  Forall (λ l, is_dict (deref l sample_world)) [1%positive; 2%positive; 1%positive].
Proof. repeat constructor; eexists; reflexivity. Qed.

Lemma add_truncates_silently_witness :
  ∃ vectors : list Vector,
    (add ["a"; "b"; "c"] [1%positive; 2%positive; 1%positive] ["i"; "j"; "k"; "l"]
       (sample_state (Some sample_embedder))).1 = Returned tt
    ∧ calls (world (add ["a"; "b"; "c"] [1%positive; 2%positive; 1%positive]
                      ["i"; "j"; "k"; "l"] (sample_state (Some sample_embedder))).2)
      = [Index_upsert sample_index vectors]
    ∧ length vectors = 2%nat.
Proof.
  destruct (add_truncates_silently ["a"; "b"; "c"] [1%positive; 2%positive; 1%positive]
              ["i"; "j"; "k"; "l"] (sample_state (Some sample_embedder))
              sample_embedder sample_index
              [sample_vector; sample_vector]
              eq_refl eq_refl eq_refl sample_metadatas_are_dicts (λ _, eq_refl))
    as (vectors & Hr & Hcalls & Hlen & _).
  exists vectors. split; [exact Hr|]. split; [exact Hcalls | exact Hlen].
Defined.

(** *** The caller's metadata after [add] *)

Lemma last_text_Some_inv (zs : list zipped) (l : loc) (text : string) :
  last_text zs l = Some text →
  ∃ j z, zs !! j = Some z ∧ z.1.2 = l ∧ z.1.1.2 = text.
Proof.
  induction zs as [|z zs IH]; simpl; [done|].
  destruct (last_text zs l) as [t|].
  - intros [= ->]. destruct (IH eq_refl) as (j & z' & Hj & Hl & Ht).
    exists (S j), z'. done.
  - case_decide as Hz; [|done]. intros [= <-]. exists 0%nat, z. done.
Qed.

(** The last text stored in an object of the zip is the text of the last
    tuple that holds this object. *)
Lemma last_text_lookup (zs : list zipped) (l : loc) (i : nat) (z : zipped) :
  zs !! i = Some z → z.1.2 = l →
  ∃ j z', (i ≤ j)%nat ∧ zs !! j = Some z' ∧ z'.1.2 = l
          ∧ last_text zs l = Some z'.1.1.2
          ∧ ∀ k z'', (j < k)%nat → zs !! k = Some z'' → z''.1.2 ≠ l.
Proof.
  revert i z. induction zs as [|z0 zs IH]; intros i z Hi Hz; [done|].
  assert (last_text zs l = None → ∀ k z'', zs !! k = Some z'' → z''.1.2 ≠ l) as Hnone.
  { clear. induction zs as [|z1 zs IH]; simpl; [done|].
    destruct (last_text zs l); [done|]. case_decide as Hz; [done|].
    intros _ [|k] z''; simpl; [by intros [= <-] | by apply IH]. }
  destruct i as [|i]; simpl in Hi.
  - injection Hi as ->. simpl.
    destruct (last_text zs l) as [t|] eqn:Hlast.
    + clear Hnone.
      destruct (last_text_Some_inv zs l t Hlast) as (j0 & z1 & Hj0 & Hl1 & _).
      destruct (IH j0 z1 Hj0 Hl1) as (j & z' & _ & Hj & Hl & Ht & Hk).
      exists (S j), z'. split_and!; try done; try lia.
      intros [|k] z'' Hlt; simpl; [lia|]. apply Hk. lia.
    + exists 0%nat, z. rewrite decide_True by done.
      split_and!; try done; try lia.
      intros [|k] z'' Hlt; simpl; [lia|]. by apply Hnone.
  - destruct (IH i z Hi Hz) as (j & z' & Hij & Hj & Hl & Hlast & Hk).
    exists (S j), z'. simpl. rewrite Hlast.
    split_and!; try done; try lia.
    intros [|k] z'' Hlt; simpl; [lia|]. apply Hk. lia.
Qed.

(** What an object holds once the loop has run over [zs]. *)
Lemma heap_after_lookup (zs : list zipped) (h : gmap loc pyval) (l : loc)
    (d : gmap string pyval) :
  Forall (λ z, is_dict (default VNone (h !! z.1.2))) zs →
  default VNone (h !! l) = VDict d →
  default VNone (heap_after zs h !! l)
  = VDict (match last_text zs l with
           | Some text => <["text" := VStr text]> d
           | None => d
           end).
Proof.
  revert h d. induction zs as [|z zs IH]; intros h d Hzs Hl; [done|].
  apply Forall_cons in Hzs as [[d0 Hd0] Hzs].
  assert (Forall (λ z', is_dict (default VNone (store_text h z !! z'.1.2))) zs) as Hzs'.
  { eapply Forall_impl; [exact Hzs|]. intros z' Hz'. by apply store_text_is_dict. }
  change (heap_after (z :: zs) h) with (heap_after zs (store_text h z)).
  simpl. destruct (decide (z.1.2 = l)) as [Heq|Hne].
  - rewrite Heq in Hd0. rewrite Hl in Hd0. injection Hd0 as <-.
    rewrite (IH (store_text h z) (<["text" := VStr z.1.1.2]> d) Hzs').
    + destruct (last_text zs l); [by rewrite insert_insert_eq | done].
    + unfold store_text. rewrite Heq, Hl, lookup_insert_eq. done.
  - rewrite (IH (store_text h z) d Hzs').
    + by destruct (last_text zs l).
    + unfold store_text. rewrite Hd0. by rewrite lookup_insert_ne.
Qed.





(** Two positions that share one object: both records carry the later text. *)
Example add_shared_metadata :
  let r := add ["a"; "b"] [1%positive; 1%positive] ["i"; "j"]
             (sample_state (Some sample_embedder)) in
  deref 1%positive (world r.2) = VDict {[ "text" := VStr "b" ]}
  ∧ (vec_metadata <$>
       match calls (world r.2) with
       | [Index_upsert _ vectors] => vectors
       | _ => []
       end) = [VDict {[ "text" := VStr "b" ]}; VDict {[ "text" := VStr "b" ]}].
Proof. split; vm_compute; reflexivity. Qed.

(** ** The index name, continued *)

Lemma lower_char_not_upper (c : ascii) : is_upper (lower_char c) = false.
Proof. destruct c as [[] [] [] [] [] [] [] []]; reflexivity. Qed.

Lemma replace_lower_clean (s : string) :
  string_forallb (λ c, negb (is_upper c) && negb (Ascii.eqb c "_"))
    (replace "_" "-" (lower s)) = true.
Proof.
  induction s as [|c s IH]; simpl; [reflexivity|].
  rewrite IH, andb_true_r.
  destruct (Ascii.eqb (lower_char c) "_") eqn:Hc; [reflexivity|].
  by rewrite Hc, lower_char_not_upper.
Qed.

(** What [_get_index_name] does ensure: no uppercase letter and no "_". *)
Lemma get_index_name_clean (self : PineconeDb) :
  string_forallb (λ c, negb (is_upper c) && negb (Ascii.eqb c "_"))
    (_get_index_name self) = true.
Proof. apply replace_lower_clean. Qed.

End PineconeFacts.

(** * Further properties of the adapter *)

Module PineconeMore.
Import Pinecone PineconeFacts.

(** ** Setting up the index *)

(** What [_setup_pinecone_index] computes when the service answers. *)
Lemma setup_eq (sf : PineconeDb) (w : World) (indexes : option (list string)) :
  let name := _get_index_name sf in
  service w (calls w) (init_call w) = Returned tt →
  service w (calls w ++ [init_call w]) pinecone_list_indexes = Returned indexes →
  (index_missing indexes name = true →
   service w (calls w ++ [init_call w; pinecone_list_indexes])
     (pinecone_create_index name (metric (config sf)) (dimension (config sf)))
   = Returned tt) →
  _setup_pinecone_index {| self := sf; world := w |}
  = (Returned {| handle_name := name |},
     {| self := {| config := config sf; index_name := Some name;
                   client := client sf; embedder_attr := embedder_attr sf |};
        world := with_calls (calls w ++ setup_calls w (config sf) name indexes) w |}).
Proof.
  intros name Hinit Hlist Hcreate.
  unfold _setup_pinecone_index, bind, gets, modify, attr, in_world, invoke, ret.
  simpl. fold (init_call w). rewrite Hinit. simpl. rewrite Hlist. simpl.
  fold name. unfold setup_calls. fold (index_missing indexes name).
  destruct (index_missing indexes name) eqn:Hmissing; simpl.
  - rewrite <- app_assoc. simpl. rewrite (Hcreate eq_refl). simpl.
    unfold with_world, with_calls. simpl. by rewrite <- !app_assoc.
  - unfold with_world, with_calls. simpl. by rewrite <- !app_assoc.
Qed.

(** X1. When the service answers, [_setup_pinecone_index] initialises the
    client library with the credentials of the environment, lists the
    indexes, and creates the index, with the configured metric and dimension,
    exactly when the answer is [None] or lacks the derived name.  It stores
    the derived name in [index_name], returns a handle on that name, and
    leaves the configuration, the client attribute, the embedder and the heap
    alone. *)
Theorem setup_creates_index_iff_missing (s : State) (indexes : option (list string)) :
  let name := _get_index_name (self s) in
  let w := world s in
  let create := pinecone_create_index name (metric (config (self s)))
                  (dimension (config (self s))) in
  service w (calls w) (init_call w) = Returned tt →
  service w (calls w ++ [init_call w]) pinecone_list_indexes = Returned indexes →
  (index_missing indexes name = true →
   service w (calls w ++ [init_call w; pinecone_list_indexes]) create = Returned tt) →
  (_setup_pinecone_index s).1 = Returned {| handle_name := name |}
  ∧ index_name (self (_setup_pinecone_index s).2) = Some name
  ∧ calls_since w (world (_setup_pinecone_index s).2)
      (setup_calls w (config (self s)) name indexes)
  ∧ (create ∈ setup_calls w (config (self s)) name indexes
     ↔ indexes = None ∨ ∃ names, indexes = Some names ∧ name ∉ names)
  ∧ config (self (_setup_pinecone_index s).2) = config (self s)
  ∧ client (self (_setup_pinecone_index s).2) = client (self s)
  ∧ embedder_attr (self (_setup_pinecone_index s).2) = embedder_attr (self s)
  ∧ heap (world (_setup_pinecone_index s).2) = heap w.
Proof.
  destruct s as [sf w0]. simpl. intros Hinit Hlist Hcreate.
  rewrite (setup_eq sf w0 indexes Hinit Hlist Hcreate). simpl.
  split_and!; try reflexivity.
  unfold setup_calls. destruct indexes as [names|]; simpl.
  - case_bool_decide as Hin; simpl.
    + split; [intros _; right; eauto | intros _; set_solver].
    + split.
      * intros Hel. apply elem_of_cons in Hel as [Hel|Hel]; [discriminate|].
        apply elem_of_cons in Hel as [Hel|Hel]; [discriminate|].
        by apply elem_of_nil in Hel.
      * intros [[=]|(names' & [= <-] & Hnot)]. done.
  - split; [intros _; by left | intros _; set_solver].
Qed.

Lemma setup_creates_index_iff_missing_witness :
  (_setup_pinecone_index
     {| self := new_object sample_config; world := world_with empty_service |}).1
  = Returned sample_index
  ∧ calls (world (_setup_pinecone_index
       {| self := new_object sample_config; world := world_with empty_service |}).2)
    = [pinecone_init (Some "key") None; pinecone_list_indexes;
       pinecone_create_index "embedchain-store-3" "cosine" 3].
Proof.
  destruct (setup_creates_index_iff_missing
              {| self := new_object sample_config; world := world_with empty_service |}
              (Some []) eq_refl eq_refl (λ _, eq_refl)) as (Hr & _ & Hcalls & _).
  split; [exact Hr | exact Hcalls].
Defined.

(** The index exists already: nothing is created. *)
Example setup_attaches_existing_index :
  calls (world (_setup_pinecone_index
      {| self := new_object sample_config; world := sample_world |}).2)
  = [pinecone_init (Some "key") None; pinecone_list_indexes].
Proof. vm_compute. reflexivity. Qed.

(** Whatever the service does, [_setup_pinecone_index] only writes
    [index_name] and the history of calls. *)
Lemma setup_frame (s : State) :
  config (self (_setup_pinecone_index s).2) = config (self s)
  ∧ client (self (_setup_pinecone_index s).2) = client (self s)
  ∧ embedder_attr (self (_setup_pinecone_index s).2) = embedder_attr (self s)
  ∧ heap (world (_setup_pinecone_index s).2) = heap (world s)
  ∧ environ (world (_setup_pinecone_index s).2) = environ (world s)
  ∧ service (world (_setup_pinecone_index s).2) = service (world s).
Proof.
  destruct s as [sf w].
  unfold _setup_pinecone_index, bind, gets, modify, attr, in_world, invoke, ret. simpl.
  repeat match goal with
         | |- context [service w ?h ?c] => destruct (service w h c); simpl
         | |- context [if ?b then _ else _] => destruct b; simpl
         end; repeat split.
Qed.

(** ** Construction *)

(** X2. Construction on a service that answers, with a base initialiser that
    returns and leaves the object alone: the configuration is the default one
    for [None] and the given one for an instance; the object holds the derived
    index name and a client handle on that very name, and no embedder; the
    calls are those of [_setup_pinecone_index]. *)
Theorem init_builds_object dflt base (arg : config_arg) (cfg : PineconeDbConfig)
    (w : World) (indexes : option (list string)) :
  let name := _get_index_name (new_object cfg) in
  (arg = OtherValue VNone ∧ cfg = dflt) ∨ arg = ConfigInstance cfg →
  service w (calls w) (init_call w) = Returned tt →
  service w (calls w ++ [init_call w]) pinecone_list_indexes = Returned indexes →
  (index_missing indexes name = true →
   service w (calls w ++ [init_call w; pinecone_list_indexes])
     (pinecone_create_index name (metric cfg) (dimension cfg)) = Returned tt) →
  (∀ s, base cfg s = (Returned tt, s)) →
  __init__ dflt base arg w
  = (Returned {| config := cfg; index_name := Some name;
                 client := Some {| handle_name := name |}; embedder_attr := None |},
     with_calls (calls w ++ setup_calls w cfg name indexes) w).
Proof.
  intros name Harg Hinit Hlist Hcreate Hbase.
  assert (__init__ dflt base (ConfigInstance cfg) w
          = (Returned {| config := cfg; index_name := Some name;
                         client := Some {| handle_name := name |}; embedder_attr := None |},
             with_calls (calls w ++ setup_calls w cfg name indexes) w)) as Hrun.
  { unfold __init__. unfold bind at 1.
    rewrite (setup_eq (new_object cfg) w indexes Hinit Hlist Hcreate).
    unfold bind, modify, gets. simpl. rewrite Hbase. reflexivity. }
  destruct Harg as [[-> ->] | ->]; exact Hrun.
Qed.

Lemma init_builds_object_witness :
  __init__ sample_config sample_base_init (OtherValue VNone) (world_with empty_service)
  = (Returned (sample_db None),
     with_calls [pinecone_init (Some "key") None; pinecone_list_indexes;
                 pinecone_create_index "embedchain-store-3" "cosine" 3]
       (world_with empty_service)).
Proof.
  exact (init_builds_object sample_config sample_base_init (OtherValue VNone)
           sample_config (world_with empty_service) (Some [])
           (or_introl (conj eq_refl eq_refl)) eq_refl eq_refl (λ _, eq_refl)
           (λ _, eq_refl)).
Defined.

(** ** Reset *)

Lemma bind_ret_state {Σ A B} (m : M Σ A) (b : B) (σ : Σ) :
  (bind m (λ _, ret b) σ).2 = (m σ).2.
Proof. unfold bind, ret. by destruct (m σ) as [[a|e] σ']. Qed.

(** X3. [reset] never rebinds [self.client]: whatever the state and whatever
    the service answers, the client attribute, the configuration, the
    embedder and the heap after [reset] are those before; the handle that
    [_setup_pinecone_index] returns is dropped. *)
Theorem reset_keeps_client (s : State) :
  client (self (reset s).2) = client (self s)
  ∧ config (self (reset s).2) = config (self s)
  ∧ embedder_attr (self (reset s).2) = embedder_attr (self s)
  ∧ heap (world (reset s).2) = heap (world s).
Proof.
  destruct s as [sf w]. unfold reset, bind, attr, in_world, invoke, ret. simpl.
  destruct (index_name sf) as [old|]; simpl; [|done].
  destruct (service w (calls w) (pinecone_delete_index old)) as [[]|e]; simpl; [|done].
  pose proof (setup_frame (with_world (with_calls (calls w ++ [pinecone_delete_index old]) w)
                             {| self := sf; world := w |})) as (Hc & Hcl & He & Hh & _).
  destruct (_setup_pinecone_index _) as [[c|e] s']; simpl in *; by rewrite Hc, Hcl, He, Hh.
Qed.




(** ** What happens when something is missing or fails *)

(** X17. On an object whose [embedder] attribute was never assigned, as it
    is right after construction, [_initialize] raises [AttributeError] when it
    reads the attribute, not the [ValueError] of its message; the state is
    left as it was. *)
Theorem initialize_unassigned_raises_AttributeError (s : State) :
  embedder_attr (self s) = None →
  raises "AttributeError" (_initialize s)
  ∧ (_initialize s).2 = s.
Proof.
  intros He. rewrite initialize_eq, He. rewrite raises_Raised. done.
Qed.

Lemma initialize_unassigned_raises_AttributeError_witness :
  raises "AttributeError"
    (_initialize {| self := new_object sample_config; world := sample_world |})
  ∧ (_initialize {| self := new_object sample_config; world := sample_world |}).2
    = {| self := new_object sample_config; world := sample_world |}.
Proof.
  exact (initialize_unassigned_raises_AttributeError
           {| self := new_object sample_config; world := sample_world |} eq_refl).
Defined.

(** X5. Without an embedder, [add] and [query] raise [AttributeError] at
    once: no metadata object is written, no service call is made, the state
    is as before. *)
Theorem add_and_query_need_embedder (s : State) (documents : list string)
    (metadatas : list loc) (ids : list string) (n_results : Z) (where_ : pyval) :
  embedder (self s) = None →
  raises "AttributeError" (add documents metadatas ids s)
  ∧ (add documents metadatas ids s).2 = s
  ∧ raises "AttributeError" (query documents n_results where_ s)
  ∧ (query documents n_results where_ s).2 = s.
Proof.
  intros He. destruct (embed_unattached s documents He) as [msg Hembed].
  assert (add documents metadatas ids s = (Raised (AttributeError msg), s))
    as -> by (unfold add; unfold bind at 1; by rewrite Hembed).
  assert (query documents n_results where_ s = (Raised (AttributeError msg), s))
    as -> by (unfold query; unfold bind at 1; by rewrite Hembed).
  rewrite !raises_Raised. done.
Qed.

Lemma add_and_query_need_embedder_witness :
  raises "AttributeError" (add ["a"] [1%positive] ["i"] (sample_state None))
  ∧ (add ["a"] [1%positive] ["i"] (sample_state None)).2 = sample_state None.
Proof.
  destruct (add_and_query_need_embedder (sample_state None) ["a"] [1%positive] ["i"]
              1 VNone eq_refl) as (Hr & Hs & _).
  split; [exact Hr | exact Hs].
Defined.

(** X6. When the embedder gives no vector at all (as for an empty query
    list), [query] raises [IndexError] before any service call; the state is
    as before. *)
Theorem query_without_vector_raises_IndexError (s : State) (e : Embedder)
    (input_query : list string) (n_results : Z) (where_ : pyval) :
  embedder (self s) = Some e →
  embedding_fn e input_query = Returned [] →
  raises "IndexError" (query input_query n_results where_ s)
  ∧ (query input_query n_results where_ s).2 = s.
Proof.
  intros He%embedder_Some Hemb. unfold query, embed, bind, attr, of_outcome.
  rewrite He, Hemb. simpl. rewrite raises_Raised. done.
Qed.

Lemma query_without_vector_raises_IndexError_witness :
  raises "IndexError" (query [] 5 VNone (sample_state (Some sample_embedder)))
  ∧ (query [] 5 VNone (sample_state (Some sample_embedder))).2
    = sample_state (Some sample_embedder).
Proof.
  exact (query_without_vector_raises_IndexError (sample_state (Some sample_embedder))
           sample_embedder [] 5 VNone eq_refl eq_refl).
Defined.

(** What [query] computes once it has a vector and a client. *)
Lemma query_eq (s : State) (e : Embedder) (c : Index) (input_query : list string)
    (n_results : Z) (where_ : pyval) (v : list pyval) (vs : list (list pyval)) :
  let q := Index_query c v n_results where_ (Some true) in
  let s' := with_world (with_calls (calls (world s) ++ [q]) (world s)) s in
  embedder (self s) = Some e →
  embedding_fn e input_query = Returned (v :: vs) →
  client (self s) = Some c →
  query input_query n_results where_ s
  = match service (world s) (calls (world s)) q with
    | Returned matches => map_M metadata_text matches s'
    | Raised err => (Raised err, s')
    end.
Proof.
  intros q s' He%embedder_Some Hv Hc.
  unfold query, embed, bind, of_outcome, attr, in_world, invoke.
  rewrite He, Hv. simpl. rewrite Hc. simpl. fold q.
  destruct (service (world s) (calls (world s)) q) as [matches|err]; simpl; [|reflexivity].
  fold s'. unfold ret. by destruct (map_M metadata_text matches s') as [[texts|err] s''].
Qed.

(** Reading the texts stops at the first match whose metadata has no
    "text". *)
Lemma map_M_metadata_text_missing {Σ} (matches : list ScoredVector) (σ : Σ) :
  Forall (λ m, is_Some (sv_metadata m)) matches →
  Exists (λ m, ∀ md, sv_metadata m = Some md → md !! "text" = None) matches →
  map_M metadata_text matches σ = (Raised (KeyError "text"), σ).
Proof.
  induction matches as [|m ms IH]; intros Hall Hex; [by apply Exists_nil in Hex|].
  apply Forall_cons in Hall as [[md Hmd] Hall].
  simpl. unfold bind at 1, metadata_text at 1. rewrite Hmd.
  destruct (md !! "text") as [t|] eqn:Ht; [|reflexivity].
  apply Exists_cons in Hex as [Hm|Hms].
  { specialize (Hm md Hmd). congruence. }
  unfold ret at 1, bind. by rewrite (IH Hall Hms).
Qed.

(** X7. When every match of the answer carries metadata and the metadata of
    some match has no "text" entry, [query] raises [KeyError], after the one
    service call it made. *)
Theorem query_match_without_text_raises_KeyError (s : State) (e : Embedder) (c : Index)
    (input_query : list string) (n_results : Z) (where_ : pyval)
    (v : list pyval) (vs : list (list pyval)) (matches : list ScoredVector) :
  embedder (self s) = Some e →
  embedding_fn e input_query = Returned (v :: vs) →
  client (self s) = Some c →
  service (world s) (calls (world s)) (Index_query c v n_results where_ (Some true))
    = Returned matches →
  Forall (λ m, is_Some (sv_metadata m)) matches →
  Exists (λ m, ∀ md, sv_metadata m = Some md → md !! "text" = None) matches →
  raises "KeyError" (query input_query n_results where_ s)
  ∧ calls_since (world s) (world (query input_query n_results where_ s).2)
      [Index_query c v n_results where_ (Some true)].
Proof.
  intros He Hv Hc Hq Hall Hex.
  rewrite (query_eq s e c input_query n_results where_ v vs He Hv Hc), Hq.
  rewrite (map_M_metadata_text_missing matches _ Hall Hex).
  rewrite raises_Raised. done.
Qed.

Lemma query_match_without_text_raises_KeyError_witness :
  raises "KeyError"
    (query ["hello"] 1 VNone
       {| self := sample_db (Some sample_embedder); world := world_with textless_service |}).
Proof.
  apply (query_match_without_text_raises_KeyError
           {| self := sample_db (Some sample_embedder);
              world := world_with textless_service |}
           sample_embedder sample_index ["hello"] 1 VNone sample_vector []
           [ {| sv_id := "id1"; sv_metadata := Some {[ "url" := VStr "u" ]} |} ]
           eq_refl eq_refl eq_refl eq_refl).
  - repeat constructor. by eexists.
  - apply Exists_cons_hd. intros md [= <-]. reflexivity.
Defined.

(** A match without metadata fails in the client's model instead. *)
Example query_match_without_metadata :
  (query ["hello"] 1 VNone
     {| self := sample_db (Some sample_embedder); world := world_with bare_service |}).1
  = Raised (ApiAttributeError "ScoredVector has no attribute 'metadata'").
Proof. vm_compute. reflexivity. Qed.

(** X8. When the service fails on the vector count, [get] raises the
    service's exception as it is and issues no similarity query: the only
    call recorded is [describe_index_stats]. *)
Theorem get_stops_when_count_fails (s : State) (c : Index) (err : exn)
    (ids : option (list string)) (where_ : pyval) (limit : option Z) :
  client (self s) = Some c →
  service (world s) (calls (world s)) (Index_describe_index_stats c) = Raised err →
  (get ids where_ limit s).1 = Raised err
  ∧ calls_since (world s) (world (get ids where_ limit s).2) [Index_describe_index_stats c]
  ∧ self (get ids where_ limit s).2 = self s.
Proof.
  intros Hc Herr.
  unfold get, count, bind, gets, attr, in_world, invoke, ret.
  rewrite Hc. simpl. rewrite Hc. simpl. rewrite Herr. simpl. repeat split.
Qed.

Lemma get_stops_when_count_fails_witness :
  (get None VNone None
     {| self := sample_db None; world := world_with failing_service |}).1
  = Raised service_down
  ∧ calls (world (get None VNone None
       {| self := sample_db None; world := world_with failing_service |}).2)
    = [Index_describe_index_stats sample_index].
Proof.
  destruct (get_stops_when_count_fails
              {| self := sample_db None; world := world_with failing_service |}
              sample_index service_down None VNone None eq_refl eq_refl)
    as (Hr & Hcalls & _).
  split; [exact Hr | exact Hcalls].
Defined.

(** ** More on adding documents *)

(** X9. [add] is not atomic.  When the service refuses the upsert, [add]
    raises the service's exception as it is; the call is in the history, with
    as many records as the zip gave, and the writes into the caller's
    metadata objects are already done. *)
Theorem add_upsert_failure_keeps_writes (documents : list string) (metadatas : list loc)
    (ids : list string) (s : State) (e : Embedder) (c : Index)
    (embeddings : list (list pyval)) (err : exn) :
  embedder (self s) = Some e →
  embedding_fn e documents = Returned embeddings →
  client (self s) = Some c →
  Forall (λ l, is_dict (deref l (world s))) metadatas →
  (∀ vectors, service (world s) (calls (world s)) (Index_upsert c vectors) = Raised err) →
  (add documents metadatas ids s).1 = Raised err
  ∧ (∃ vectors, calls_since (world s) (world (add documents metadatas ids s).2)
                  [Index_upsert c vectors]
                ∧ length vectors = length (zip4 ids documents metadatas embeddings))
  ∧ heap (world (add documents metadatas ids s).2)
    = heap_after (zip4 ids documents metadatas embeddings) (heap (world s)).
Proof.
  intros He Hemb Hc Hdict Hsvc.
  rewrite (add_eq documents metadatas ids s e embeddings He Hemb Hdict), Hc.
  simpl. rewrite Hsvc. split; [reflexivity|]. split; [|reflexivity].
  eexists. split; [reflexivity|]. by rewrite length_fmap.
Qed.

Lemma add_upsert_failure_keeps_writes_witness :
  (add ["a"; "b"] [1%positive; 2%positive] ["i"; "j"]
     {| self := sample_db (Some sample_embedder); world := world_with failing_service |}).1
  = Raised service_down
  ∧ deref 1%positive
      (world (add ["a"; "b"] [1%positive; 2%positive] ["i"; "j"]
         {| self := sample_db (Some sample_embedder);
            world := world_with failing_service |}).2)
    = VDict {[ "text" := VStr "a" ]}.
Proof.
  assert (Forall (λ l, is_dict (deref l (world_with failing_service)))
            [1%positive; 2%positive]) as Hdict
    by (repeat constructor; eexists; reflexivity).
  destruct (add_upsert_failure_keeps_writes ["a"; "b"] [1%positive; 2%positive] ["i"; "j"]
              {| self := sample_db (Some sample_embedder);
                 world := world_with failing_service |}
              sample_embedder sample_index [sample_vector; sample_vector] service_down
              eq_refl eq_refl eq_refl Hdict (λ _, eq_refl)) as (Hr & _ & Hheap).
  split; [exact Hr|]. unfold deref. rewrite Hheap. vm_compute. reflexivity.
Defined.

(** X10. With pairwise distinct metadata objects, the record that [add] sends
    for a position the zip reaches is that position's id and embedding,
    together with the caller's metadata in which "text" is that position's
    document. *)
Theorem add_sends_text_with_each_record (documents : list string) (metadatas : list loc)
    (ids : list string) (s : State) (e : Embedder) (c : Index)
    (embeddings : list (list pyval))
    (i : nat) (id text : string) (l : loc) (v : list pyval) (d : gmap string pyval) :
  embedder (self s) = Some e →
  embedding_fn e documents = Returned embeddings →
  client (self s) = Some c →
  Forall (λ l, is_dict (deref l (world s))) metadatas →
  NoDup metadatas →
  ids !! i = Some id →
  documents !! i = Some text →
  metadatas !! i = Some l →
  embeddings !! i = Some v →
  deref l (world s) = VDict d →
  ∃ vectors,
    calls_since (world s) (world (add documents metadatas ids s).2) [Index_upsert c vectors]
    ∧ vectors !! i = Some {| vec_id := id; vec_values := v;
                             vec_metadata := VDict (<["text" := VStr text]> d) |}.
Proof.
  intros He Hemb Hc Hdict Hnodup Hid Htext Hl Hv Hd.
  rewrite (add_eq documents metadatas ids s e embeddings He Hemb Hdict), Hc.
  set (zs := zip4 ids documents metadatas embeddings).
  set (w1 := with_heap (heap_after zs (heap (world s))) (world s)).
  exists (vector_of w1 <$> zs). split; [reflexivity|].
  assert (zs !! i = Some (id, text, l, v)) as Hi by (by apply zip4_lookup).
  rewrite list_lookup_fmap, Hi. simpl. unfold vector_of. simpl. f_equal. f_equal.
  unfold deref, w1. simpl.
  rewrite (heap_after_lookup zs (heap (world s)) l d);
    [|exact (zip4_Forall_metadata (λ l, is_dict (deref l (world s))) _ _ _ _ Hdict)
     |exact Hd].
  destruct (last_text_lookup zs l i (id, text, l, v) Hi eq_refl)
    as (j & [[[id' text'] l'] v'] & _ & Hj & Hl' & Hlast & _).
  simpl in Hl', Hlast. subst l'. rewrite Hlast.
  apply zip4_lookup in Hj as (_ & Htext' & Hlj & _).
  assert (i = j) as <- by exact (NoDup_lookup metadatas i j l Hnodup Hl Hlj).
  rewrite Htext in Htext'. by injection Htext' as <-.
Qed.

Lemma add_sends_text_with_each_record_witness :
  ∃ vectors,
    calls (world (add ["a"; "b"] [1%positive; 2%positive] ["i"; "j"]
                    (sample_state (Some sample_embedder))).2)
    = [Index_upsert sample_index vectors]
    ∧ vectors !! 1%nat
      = Some {| vec_id := "j"; vec_values := sample_vector;
                vec_metadata := VDict (<["text" := VStr "b"]> {[ "url" := VStr "u" ]}) |}.
Proof.
  assert (Forall (λ l, is_dict (deref l sample_world)) [1%positive; 2%positive]) as Hdict
    by (repeat constructor; eexists; reflexivity).
  assert (NoDup [1%positive; 2%positive]) as Hnodup
    by (apply NoDup_cons; split; [set_solver | apply NoDup_singleton]).
  exact (add_sends_text_with_each_record ["a"; "b"] [1%positive; 2%positive] ["i"; "j"]
           (sample_state (Some sample_embedder)) sample_embedder sample_index
           [sample_vector; sample_vector] 1 "j" "b" 2%positive sample_vector
           {[ "url" := VStr "u" ]}
           eq_refl eq_refl eq_refl Hdict Hnodup eq_refl eq_refl eq_refl eq_refl eq_refl).
Defined.

Lemma zip4_take {A B C D} (k : nat) (a : list A) (b : list B) (c : list C) (d : list D) :
  take k (zip4 a b c d) = zip4 (take k a) (take k b) (take k c) (take k d).
Proof.
  revert a b c d. induction k as [|k IH]; intros [|x a] [|y b] [|z c] [|u d]; simpl;
    try done.
  by rewrite IH.
Qed.

(** An object that is not a dict is never written. *)
Lemma store_text_not_dict (h : gmap loc pyval) (z : zipped) (l : loc) :
  ¬ is_dict (default VNone (h !! l)) → store_text h z !! l = h !! l.
Proof.
  intros Hl. unfold store_text.
  destruct (default VNone (h !! z.1.2)) eqn:Hz; try reflexivity.
  destruct (decide (z.1.2 = l)) as [Heq|Hne]; [|by rewrite lookup_insert_ne].
  exfalso. apply Hl. rewrite <- Heq, Hz. by eexists.
Qed.

(** The loop of [add] stops at the first metadata that is not a dict: the
    tuples before it are done, the rest is not. *)
Lemma add_loop_stops (zs1 : list zipped) (z : zipped) (zs2 : list zipped)
    (acc : list (string * list pyval * loc)) (sf : PineconeDb) (w : World) :
  Forall (λ z, is_dict (deref z.1.2 w)) zs1 →
  ¬ is_dict (deref z.1.2 w) →
  for_each add_doc (zs1 ++ z :: zs2) acc {| self := sf; world := w |}
  = (Raised (TypeError "object does not support item assignment"),
     {| self := sf; world := with_heap (heap_after zs1 (heap w)) w |}).
Proof.
  revert acc w. induction zs1 as [|[[[id text] l] emb] zs1 IH]; intros acc w Hzs Hz.
  - destruct z as [[[id text] l] emb]. simpl in *.
    unfold bind, add_doc, in_world, setitem. simpl.
    destruct w as [en h cs sv]. simpl in *.
    destruct (deref l _) eqn:Hd; try reflexivity.
    exfalso. apply Hz. by eexists.
  - apply Forall_cons in Hzs as [[d Hd] Hzs]. simpl in Hd.
    simpl. unfold bind at 1. unfold add_doc at 1.
    unfold bind at 1. unfold in_world, setitem. simpl.
    rewrite Hd. unfold ret at 1. unfold with_world. simpl.
    assert (store_text (heap w) (id, text, l, emb)
            = <[l := VDict (<["text" := VStr text]> d)]> (heap w)) as Hstore.
    { unfold store_text. simpl. unfold deref in Hd. by rewrite Hd. }
    rewrite IH.
    + unfold heap_after. simpl. by rewrite Hstore.
    + eapply Forall_impl; [exact Hzs|]. intros z' Hz'. unfold deref, with_heap; simpl.
      rewrite <- Hstore. by apply store_text_is_dict.
    + unfold deref, with_heap; simpl. rewrite <- Hstore.
      by rewrite store_text_not_dict.
Qed.

(** X11. A metadata that is not a dict makes [add] raise [TypeError] when the
    loop reaches it, with no service call.  The metadata objects of the
    positions before it have been written all the same: each holds a "text"
    entry. *)
Theorem add_stops_at_non_dict_metadata (documents : list string) (metadatas : list loc)
    (ids : list string) (s : State) (e : Embedder) (embeddings : list (list pyval))
    (k : nat) (id text : string) (l : loc) (v : list pyval) :
  embedder (self s) = Some e →
  embedding_fn e documents = Returned embeddings →
  ids !! k = Some id →
  documents !! k = Some text →
  metadatas !! k = Some l →
  embeddings !! k = Some v →
  Forall (λ l, is_dict (deref l (world s))) (take k metadatas) →
  ¬ is_dict (deref l (world s)) →
  raises "TypeError" (add documents metadatas ids s)
  ∧ calls (world (add documents metadatas ids s).2) = calls (world s)
  ∧ ∀ i li, (i < k)%nat → metadatas !! i = Some li →
      ∃ d, deref li (world (add documents metadatas ids s).2) = VDict d
           ∧ is_Some (d !! "text").
Proof.
  intros He Hemb Hid Htext Hl Hv Hdict Hbad.
  set (zs := zip4 ids documents metadatas embeddings).
  assert (zs !! k = Some (id, text, l, v)) as Hk by (by apply zip4_lookup).
  assert (Forall (λ z : zipped, is_dict (deref z.1.2 (world s))) (take k zs)) as Hdict'.
  { unfold zs. rewrite zip4_take.
    exact (zip4_Forall_metadata (λ l, is_dict (deref l (world s))) _ _ _ _ Hdict). }
  assert (add documents metadatas ids s
          = (Raised (TypeError "object does not support item assignment"),
             {| self := self s;
                world := with_heap (heap_after (take k zs) (heap (world s))) (world s) |}))
    as Hrun.
  { destruct s as [sf w]. simpl in *.
    unfold add. unfold bind at 1.
    rewrite (embed_attached {| self := sf; world := w |} e documents He), Hemb.
    unfold bind at 1. fold zs.
    rewrite <- (take_drop_middle zs k (id, text, l, v) Hk) at 1.
    by rewrite (add_loop_stops (take k zs) (id, text, l, v) (drop (S k) zs) [] sf w Hdict' Hbad). }
  rewrite Hrun, raises_Raised. split; [reflexivity|]. split; [reflexivity|].
  intros i li Hi Hli. simpl.
  assert (is_Some (zs !! i)) as [[[[idi ti] li'] vi] Hzi].
  { apply lookup_lt_is_Some. apply lookup_lt_Some in Hk. lia. }
  pose proof Hzi as Hzi'. apply zip4_lookup in Hzi' as (_ & _ & Hli' & _).
  rewrite Hli in Hli'. injection Hli' as <-.
  assert (take k zs !! i = Some (idi, ti, li, vi)) as Hti
    by (by rewrite lookup_take_lt).
  destruct (proj1 (Forall_lookup _ _) Hdict' i _ Hti) as [d Hd]. simpl in Hd.
  unfold deref. simpl.
  rewrite (heap_after_lookup (take k zs) (heap (world s)) li d Hdict' Hd).
  destruct (last_text_lookup (take k zs) li i _ Hti eq_refl) as (j & z' & _ & _ & _ & -> & _).
  eexists. split; [reflexivity|]. rewrite lookup_insert_eq. by eexists.
Qed.

Lemma add_stops_at_non_dict_metadata_witness :
  raises "TypeError"
    (add ["a"; "b"; "c"] [1%positive; 3%positive; 2%positive] ["i"; "j"; "k"]
       {| self := sample_db (Some sample_embedder); world := world_with empty_service |})
  ∧ calls (world (add ["a"; "b"; "c"] [1%positive; 3%positive; 2%positive] ["i"; "j"; "k"]
       {| self := sample_db (Some sample_embedder);
          world := world_with empty_service |}).2) = [].
Proof.
  assert (Forall (λ l, is_dict (deref l (world_with empty_service))) [1%positive]) as Hdict
    by (repeat constructor; eexists; reflexivity).
  assert (¬ is_dict (deref 3%positive (world_with empty_service))) as Hbad
    by (intros [d Hd]; discriminate Hd).
  destruct (add_stops_at_non_dict_metadata ["a"; "b"; "c"]
              [1%positive; 3%positive; 2%positive] ["i"; "j"; "k"]
              {| self := sample_db (Some sample_embedder); world := world_with empty_service |}
              sample_embedder [sample_vector; sample_vector]
              1 "j" "b" 3%positive sample_vector
              eq_refl eq_refl eq_refl eq_refl eq_refl eq_refl Hdict Hbad) as (Hr & Hcalls & _).
  split; [exact Hr | exact Hcalls].
Defined.

(** One turn of the loop of [add]. *)
Lemma add_doc_eq (acc : list (string * list pyval * loc)) (id text : string) (l : loc)
    (emb : list pyval) (sf : PineconeDb) (w : World) :
  add_doc acc (id, text, l, emb) {| self := sf; world := w |}
  = match deref l w with
    | VDict d =>
        (Returned (acc ++ [(id, emb, l)]),
         {| self := sf;
            world := with_heap (<[l := VDict (<["text" := VStr text]> d)]> (heap w)) w |})
    | _ => (Raised (TypeError "object does not support item assignment"),
            {| self := sf; world := w |})
    end.
Proof.
  unfold add_doc, bind, in_world, setitem, ret, with_world. simpl.
  by destruct (deref l w).
Qed.

Lemma for_each_cons {Σ A B} (body : B → A → M Σ B) (x : A) (xs : list A) (acc : B) :
  for_each body (x :: xs) acc = bind (body acc x) (λ acc', for_each body xs acc').
Proof. reflexivity. Qed.

(** However the loop of [add] ends, it has run over a prefix of the zip. *)
Lemma add_loop_any (zs : list zipped) (acc : list (string * list pyval * loc))
    (sf : PineconeDb) (w : World) :
  ∃ k, (for_each add_doc zs acc {| self := sf; world := w |}).2
       = {| self := sf; world := with_heap (heap_after (take k zs) (heap w)) w |}.
Proof.
  revert acc w. induction zs as [|[[[id text] l] emb] zs IH]; intros acc w.
  - exists 0%nat. by destruct w.
  - rewrite for_each_cons. unfold bind at 1. rewrite add_doc_eq.
    destruct (deref l w) eqn:Hd;
      try (exists 0%nat; by destruct w).
    match goal with
    | |- context [for_each add_doc zs ?a {| self := sf; world := ?w1 |}] =>
        destruct (IH a w1) as [k Hk]
    end.
    exists (S k). rewrite Hk. simpl. unfold heap_after at 2. simpl.
    unfold store_text at 2. simpl. unfold deref in Hd. by rewrite Hd.
Qed.

(** Whatever [add] does, its writes are those of the loop over some tuples
    whose metadata are among [metadatas], and [self] is as before. *)
Lemma add_state_any (documents : list string) (metadatas : list loc) (ids : list string)
    (s : State) :
  ∃ (zs : list zipped) (w' : World),
    Forall (λ z, z.1.2 ∈ metadatas) zs
    ∧ (add documents metadatas ids s).2 = {| self := self s; world := w' |}
    ∧ heap w' = heap_after zs (heap (world s)).
Proof.
  destruct s as [sf w].
  unfold add. unfold bind at 1. unfold embed, bind at 1, attr. simpl.
  destruct (embedder_attr sf) as [[e|]|]; [|by exists [], w..].
  unfold of_outcome.
  destruct (embedding_fn e documents) as [embeddings|err]; [|by exists [], w].
  set (zs := zip4 ids documents metadatas embeddings).
  destruct (add_loop_any zs [] sf w) as [k Hk].
  assert (Forall (λ z : zipped, z.1.2 ∈ metadatas) (take k zs)) as Hzs.
  { apply Forall_forall. intros z Hz. apply list_elem_of_lookup in Hz as [i Hi].
    apply lookup_take_Some in Hi as [Hi _].
    destruct z as [[[id text] l] emb]. apply zip4_lookup in Hi as (_ & _ & Hl & _).
    simpl. apply list_elem_of_lookup. eauto. }
  unfold bind at 1.
  destruct (for_each add_doc zs [] {| self := sf; world := w |}) as [[docs|err] s1];
    simpl in Hk; subst s1; [|by eexists (take k zs), _].
  unfold bind at 1, attr. simpl.
  destruct (client sf) as [c|]; [|by eexists (take k zs), _].
  unfold bind, gets, in_world, invoke, ret. simpl.
  match goal with
  | |- context [service w ?h ?c] => destruct (service w h c)
  end; by eexists (take k zs), _.
Qed.

Lemma only_text_changed_trans (u v x : pyval) :
  only_text_changed u v → only_text_changed v x → only_text_changed u x.
Proof.
  intros [->|(d & t & -> & ->)] [->|(d' & t' & Hv & ->)].
  - by left.
  - right. eauto.
  - right. eauto.
  - injection Hv as <-. right. exists d, t'. by rewrite insert_insert_eq.
Qed.

Lemma heap_after_only_text (zs : list zipped) (h : gmap loc pyval) (l : loc) :
  only_text_changed (default VNone (h !! l)) (default VNone (heap_after zs h !! l))
  ∧ (Forall (λ z, z.1.2 ≠ l) zs → heap_after zs h !! l = h !! l).
Proof.
  revert h. induction zs as [|z zs IH]; intros h; [split; [by left | done]|].
  change (heap_after (z :: zs) h) with (heap_after zs (store_text h z)).
  destruct (IH (store_text h z)) as [Htext Hsame]. split.
  - eapply only_text_changed_trans; [|exact Htext].
    unfold store_text. destruct (default VNone (h !! z.1.2)) eqn:Hz; try by left.
    destruct (decide (z.1.2 = l)) as [<-|Hne].
    + rewrite lookup_insert_eq, Hz. right. eauto.
    + rewrite lookup_insert_ne by done. by left.
  - intros Hzs. apply Forall_cons in Hzs as [Hz Hzs]. rewrite (Hsame Hzs).
    unfold store_text. destruct (default VNone (h !! z.1.2)); try reflexivity.
    by rewrite lookup_insert_ne.
Qed.

(** X12. What [add] never does.  For every call, whatever its outcome: the
    adapter object is unchanged; an object of the caller that is not among
    [metadatas] is untouched; and any other object is either as it was or a
    dict that differs from what it was in its "text" entry only. *)
Theorem add_only_writes_text (documents : list string) (metadatas : list loc)
    (ids : list string) (s : State) (l : loc) :
  self (add documents metadatas ids s).2 = self s
  ∧ only_text_changed (deref l (world s)) (deref l (world (add documents metadatas ids s).2))
  ∧ (l ∉ metadatas →
     heap (world (add documents metadatas ids s).2) !! l = heap (world s) !! l).
Proof.
  destruct (add_state_any documents metadatas ids s) as (zs & w' & Hzs & -> & Hheap).
  destruct (heap_after_only_text zs (heap (world s)) l) as [Htext Hsame].
  split; [reflexivity|]. unfold deref. simpl. rewrite Hheap. split; [exact Htext|].
  intros Hl. apply Hsame. eapply Forall_impl; [exact Hzs|].
  intros z Hz Heq. apply Hl. by rewrite <- Heq.
Qed.

(** ** More on the index name *)

Lemma lower_app (s t : string) : lower (s +:+ t) = lower s +:+ lower t.
Proof. induction s as [|c s IH]; simpl; [done | by rewrite IH]. Qed.

Lemma replace_app (old new : ascii) (s t : string) :
  replace old new (s +:+ t) = replace old new s +:+ replace old new t.
Proof. induction s as [|c s IH]; simpl; [done | by rewrite IH]. Qed.

Lemma string_forallb_app (p : ascii → bool) (s t : string) :
  string_forallb p (s +:+ t) = string_forallb p s && string_forallb p t.
Proof. induction s as [|c s IH]; simpl; [done | by rewrite IH, andb_assoc]. Qed.

Lemma string_app_inv_head (s t1 t2 : string) : s +:+ t1 = s +:+ t2 → t1 = t2.
Proof. induction s as [|c s IH]; simpl; [done | intros [= H]; auto]. Qed.

(** The derived name, part by part. *)
Lemma get_index_name_parts (self : PineconeDb) :
  _get_index_name self
  = replace "_" "-" (lower (collection_name (config self)))
    +:+ "-" +:+ replace "_" "-" (lower (str_int (dimension (config self)))).
Proof. unfold _get_index_name. by rewrite !lower_app, !replace_app. Qed.

(** The digits of a number. *)
Lemma pretty_N_go_digits (x : N) (s : string) :
  string_forallb is_digit s = true → string_forallb is_digit (pretty_N_go x s) = true.
Proof.
  revert s. induction (N.lt_wf_0 x) as [x _ IH]; intros s Hs.
  assert (x = 0 ∨ 0 < x)%N as [->|Hx] by lia; [by rewrite pretty_N_go_0|].
  rewrite pretty_N_go_step by done. apply IH; [by apply N.div_lt|].
  simpl. rewrite Hs, andb_true_r.
  unfold pretty_N_char. by repeat case_match.
Qed.

Lemma str_int_digits_or_dash (n : Z) :
  string_forallb (λ c, is_digit c || Ascii.eqb c "-") (str_int n) = true.
Proof.
  assert (∀ p : positive, string_forallb is_digit (pretty p) = true) as Hpos.
  { intros p. unfold pretty, pretty_positive, pretty, pretty_N.
    case_decide; [done|]. by apply pretty_N_go_digits. }
  assert (∀ s, string_forallb is_digit s = true →
               string_forallb (λ c, is_digit c || Ascii.eqb c "-") s = true) as Hweak.
  { induction s as [|c s IH]; simpl; [done|].
    intros [Hc Hs]%andb_true_iff. by rewrite Hc, IH. }
  unfold str_int. destruct n as [|p|p]; [done|exact (Hweak _ (Hpos p))|].
  change (pretty (Z.neg p)) with ("-" +:+ pretty p).
  rewrite string_forallb_app, (Hweak _ (Hpos p)). reflexivity.
Qed.

(** Digits and "-" are left alone by [lower] and by the replacement. *)
Lemma normalise_digits_id (s : string) :
  string_forallb (λ c, is_digit c || Ascii.eqb c "-") s = true →
  replace "_" "-" (lower s) = s.
Proof.
  induction s as [|c s IH]; simpl; [done|].
  intros [Hc Hs]%andb_true_iff. rewrite (IH Hs). f_equal.
  revert Hc. clear. destruct c as [[] [] [] [] [] [] [] []]; vm_compute; congruence.
Qed.

Lemma normalise_safe_char (c : ascii) :
  safe_in_collection_name c = true →
  allowed_in_index_name (if Ascii.eqb (lower_char c) "_" then "-"%char else lower_char c)
  = true
  ∧ (if Ascii.eqb (lower_char c) "_" then "-"%char else lower_char c)
    = (if is_alnum (lower_char c) || Ascii.eqb (lower_char c) "-"
       then lower_char c else "-"%char).
Proof. destruct c as [[] [] [] [] [] [] [] []]; vm_compute; intuition congruence. Qed.

Lemma normalise_safe (s : string) :
  string_forallb safe_in_collection_name s = true →
  string_forallb allowed_in_index_name (replace "_" "-" (lower s)) = true
  ∧ replace "_" "-" (lower s) = dash_non_alnum (lower s).
Proof.
  induction s as [|c s IH]; simpl; [done|].
  intros [Hc Hs]%andb_true_iff. destruct (IH Hs) as [IH1 IH2].
  destruct (normalise_safe_char c Hc) as [Hc1 Hc2].
  rewrite Hc1, IH1, Hc2, IH2. done.
Qed.

Lemma digits_are_safe (s : string) :
  string_forallb (λ c, is_digit c || Ascii.eqb c "-") s = true →
  string_forallb safe_in_collection_name s = true.
Proof.
  induction s as [|c s IH]; simpl; [done|].
  intros [Hc Hs]%andb_true_iff. rewrite (IH Hs), andb_true_r.
  revert Hc. clear. destruct c as [[] [] [] [] [] [] [] []]; vm_compute; congruence.
Qed.

(** X13. For a collection name made of letters, digits, "_" and "-", and any
    dimension, the derived index name holds only lowercase letters, digits
    and "-", and it is the name the specification describes. *)
Theorem get_index_name_valid_for_safe_names (self : PineconeDb) :
  string_forallb safe_in_collection_name (collection_name (config self)) = true →
  string_forallb allowed_in_index_name (_get_index_name self) = true
  ∧ _get_index_name self = spec_index_name (config self).
Proof.
  intros Hname. unfold _get_index_name, spec_index_name. apply normalise_safe.
  rewrite !string_forallb_app, Hname. simpl.
  apply digits_are_safe, str_int_digits_or_dash.
Qed.

Lemma get_index_name_valid_for_safe_names_witness :
  string_forallb allowed_in_index_name (_get_index_name (sample_db None)) = true
  ∧ _get_index_name (sample_db None) = spec_index_name sample_config.
Proof. exact (get_index_name_valid_for_safe_names (sample_db None) eq_refl). Defined.

(** X14. Collection names that become equal once lowercased and with "_"
    read as "-" (such as "My_Store" and "my-store") derive the same index
    name for the same dimension: such collections share one remote index. *)
Theorem get_index_name_collides (db1 db2 : PineconeDb) :
  dimension (config db1) = dimension (config db2) →
  replace "_" "-" (lower (collection_name (config db1)))
  = replace "_" "-" (lower (collection_name (config db2))) →
  _get_index_name db1 = _get_index_name db2.
Proof. intros Hdim Hname. by rewrite !get_index_name_parts, Hdim, Hname. Qed.

Lemma get_index_name_collides_witness :
  _get_index_name
    (new_object {| collection_name := "My_Store"; dimension := 3; metric := "cosine" |})
  = _get_index_name
      (new_object {| collection_name := "my-store"; dimension := 3; metric := "dotproduct" |}).
Proof.
  exact (get_index_name_collides
           (new_object {| collection_name := "My_Store"; dimension := 3; metric := "cosine" |})
           (new_object {| collection_name := "my-store"; dimension := 3;
                          metric := "dotproduct" |})
           eq_refl eq_refl).
Defined.

Lemma get_index_name_dimension_inj (db1 db2 : PineconeDb) :
  collection_name (config db1) = collection_name (config db2) →
  _get_index_name db1 = _get_index_name db2 →
  dimension (config db1) = dimension (config db2).
Proof.
  intros Hname. rewrite !get_index_name_parts, Hname.
  intros Heq. apply string_app_inv_head in Heq. simpl in Heq. injection Heq as Heq.
  rewrite !normalise_digits_id in Heq by apply str_int_digits_or_dash.
  unfold str_int in Heq. exact (inj pretty _ _ Heq).
Qed.

(** X15. For one collection name, different dimensions derive different
    index names: a collection never shares its index with the same
    collection at another dimension. *)
Theorem get_index_name_separates_dimensions (db1 db2 : PineconeDb) :
  collection_name (config db1) = collection_name (config db2) →
  dimension (config db1) ≠ dimension (config db2) →
  _get_index_name db1 ≠ _get_index_name db2.
Proof.
  intros Hname Hdim Heq. apply Hdim.
  by apply get_index_name_dimension_inj.
Qed.

Lemma get_index_name_separates_dimensions_witness :
  _get_index_name (sample_db None)
  ≠ _get_index_name
      (new_object {| collection_name := "embedchain_store"; dimension := 1536;
                     metric := "cosine" |}).
Proof.
  apply (get_index_name_separates_dimensions (sample_db None)
           (new_object {| collection_name := "embedchain_store"; dimension := 1536;
                          metric := "cosine" |}) eq_refl).
  discriminate.
Defined.

End PineconeMore.
